(** * generate_graphs.py: benchmark tables, last-value aggregation, charts

    A shallow embedding of [src/generate_graphs.py].  The script reads six
    CSV tables per storage device, reduces each table with
    [groupby(col)[value].last()], and draws error-bar charts that it saves as
    PNG files.

    The pandas, matplotlib and [os] calls the script makes are modelled by
    small executable definitions:
    - a DataFrame is the list of its rows, in file order;
    - [groupby] uses its defaults, [sort=True] and [dropna=True]: group keys
      come out in ascending order, and [.last()] takes the last value of the
      group that is not NA (NaN for a float column);
    - pyplot is a stack of open figures, the head being the current one;
    - what the plotting library refuses, the arguments of [errorbar] and
      the figure that [savefig] has to draw, is a parameter of the script;
    - the file system is a finite map from resolved paths to nodes. *)

From Stdlib Require Import ZArith Ascii Floats.PrimFloat.
From stdpp Require Import base list strings sorting pretty gmap.

Local Open Scope Z_scope.

(** ** Measurement tables *)

(** One row of a measurement table.  [io_size] and [stride_size] are integer
    columns, [mean] and [ci95] are float64 columns, so they can hold NaN.
    Tables of the I/O-size benchmarks have no [stride_size] column; the code
    never reads it for them. *)
Record Row := mkRow {
  io_size : Z;
  stride_size : Z;
  mean : float;
  ci95 : float
}.

(** A DataFrame is the list of its rows, in file order. *)
Abbreviation DataFrame := (list Row).

(** pandas' [notna] on a float64 value. *)
Definition notna (v : float) : bool := negb (is_nan v).

(** [df[df[col] == k]]: the rows whose key equals [k], in row order. *)
Definition select (key : Row -> Z) (k : Z) (df : DataFrame) : DataFrame :=
  filter (fun r => key r = k) df.

(** Insertion of a key into an ascending list without duplicates. *)
Fixpoint insert_key (k : Z) (ks : list Z) : list Z :=
  match ks with
  | [] => [k]
  | k' :: ks' =>
      if decide (k < k') then k :: ks
      else if decide (k = k') then ks
      else k' :: insert_key k ks'
  end.

(** The group keys of [df.groupby(col)]: the distinct key values, sorted
    ascending ([sort=True] is the default of [groupby]). *)
Definition group_keys (key : Row -> Z) (df : DataFrame) : list Z :=
  foldr insert_key [] (map key df).

(** [SeriesGroupBy.last()] on one group: the last value that is not NA, and
    NaN when the group holds none. *)
Definition last_valid (vs : list float) : float :=
  default nan (last (filter (fun v => notna v = true) vs)).

(** [df.groupby(key)[col].last()]: a Series indexed by the group keys. *)
Definition groupby_last (key : Row -> Z) (col : Row -> float)
    (df : DataFrame) : list (Z * float) :=
  map (fun k => (k, last_valid (map col (select key k df)))) (group_keys key df).

(** [s.index] and [s.values] of such a Series. *)
Definition index (s : list (Z * float)) : list Z := map fst s.
Definition values (s : list (Z * float)) : list float := map snd s.

(** Label lookup in a Series, [s.get(k)]. *)
Fixpoint series_get (k : Z) (s : list (Z * float)) : option float :=
  match s with
  | [] => None
  | (k', v) :: s' => if decide (k = k') then Some v else series_get k s'
  end.

(** ** Number formatting *)

(** Rounding of the rational [n/d] ([0 <= n], [0 < d]) to an integer, ties
    to the even neighbour: what [format] does with a float. *)
Definition round_half_even (n d : Z) : Z :=
  let q := n `div` d in
  let r := n `mod` d in
  if decide (2 * r < d) then q
  else if decide (d < 2 * r) then q + 1
  else if Z.even q then q else q + 1.

(** [f'{n/d:.0f}']: no digit after the point, and no point.  The quotient of
    the script, [io_size/1024] with [io_size] below [2^53], is an exact
    float, so the rational is the float. *)
Definition format_f0 (n d : Z) : string :=
  (if decide (n < 0) then "-" else "") +:+ pretty (round_half_even (Z.abs n) d).

(** The legend label of a stride series, [f'IO Size={io_size/1024:.0f}KB']. *)
Definition stride_label (size : Z) : string :=
  "IO Size=" +:+ format_f0 size 1024 +:+ "KB".

(** ** Figures *)

(** One [errorbar] call: the data and the style it was given. *)
Record Series := mkSeries {
  xs : list Z;
  ys : list float;
  yerr : list float;
  fmt : option string;
  label : string
}.

Record Figure := mkFigure {
  figsize : option (Z * Z);
  series : list Series;
  xscale : string;
  yscale : string;
  xlabel : string;
  ylabel : string;
  title : string;
  grid : bool;
  legend : bool
}.

(** A figure as [plt.figure] creates it. *)
Definition new_figure (size : option (Z * Z)) : Figure :=
  mkFigure size [] "linear" "linear" "" "" "" false false.

Definition add_series (s : Series) (f : Figure) : Figure :=
  mkFigure (figsize f) (series f ++ [s]) (xscale f) (yscale f) (xlabel f)
           (ylabel f) (title f) (grid f) (legend f).
Definition set_xscale (v : string) (f : Figure) : Figure :=
  mkFigure (figsize f) (series f) v (yscale f) (xlabel f) (ylabel f)
           (title f) (grid f) (legend f).
Definition set_yscale (v : string) (f : Figure) : Figure :=
  mkFigure (figsize f) (series f) (xscale f) v (xlabel f) (ylabel f)
           (title f) (grid f) (legend f).
Definition set_xlabel (v : string) (f : Figure) : Figure :=
  mkFigure (figsize f) (series f) (xscale f) (yscale f) v (ylabel f)
           (title f) (grid f) (legend f).
Definition set_ylabel (v : string) (f : Figure) : Figure :=
  mkFigure (figsize f) (series f) (xscale f) (yscale f) (xlabel f) v
           (title f) (grid f) (legend f).
Definition set_title (v : string) (f : Figure) : Figure :=
  mkFigure (figsize f) (series f) (xscale f) (yscale f) (xlabel f) (ylabel f)
           v (grid f) (legend f).
Definition set_grid (v : bool) (f : Figure) : Figure :=
  mkFigure (figsize f) (series f) (xscale f) (yscale f) (xlabel f) (ylabel f)
           (title f) v (legend f).
Definition set_legend (v : bool) (f : Figure) : Figure :=
  mkFigure (figsize f) (series f) (xscale f) (yscale f) (xlabel f) (ylabel f)
           (title f) (grid f) v.

(** ** The file system *)

(** A resolved path: the names from the working directory down. *)
Abbreviation path := (list string).

(** [s.split('/')]. *)
Fixpoint split_slash (s : string) : list string :=
  match s with
  | EmptyString => [EmptyString]
  | String c s' =>
      if Ascii.eqb c "/"%char then EmptyString :: split_slash s'
      else match split_slash s' with
           | [] => [String c EmptyString]
           | w :: ws => String c w :: ws
           end
  end.

(** Path resolution.  The working directory is the root of the modelled
    tree; empty components and [.] are skipped, so that [d/.] and [d/]
    name the node [d] whatever it is.  There are no symbolic links, [..]
    is taken as a name, and a leading [/] is not told apart. *)
Definition resolve (s : string) : path :=
  filter (fun c => c ≠ "" ∧ c ≠ ".") (split_slash s).

Definition parent (p : path) : path := take (length p - 1)%nat p.

(** What a file holds: a CSV file is represented by the table [read_csv]
    parses from it, a PNG file by the figure it shows. *)
Inductive content :=
  | CsvData (df : DataFrame)
  | PngImage (fig : Figure).

Inductive node :=
  | Dir
  | File (c : content).

(** The node at a path; the root is a directory. *)
Definition lookup_node (tree : gmap path node) (p : path) : option node :=
  match p with
  | [] => Some Dir
  | _ => tree !! p
  end.

(** ** The state of a run and its monad *)

Inductive exn :=
  | FileNotFoundError
  | FileExistsError
  | NotADirectoryError
  | IsADirectoryError
  | UnicodeDecodeError
  | ValueError.

(** The calls a run makes to the libraries, in order. *)
Inductive Event :=
  | EvMakedirs (name : string)
  | EvReadCsv (filepath : string)
  | EvFigure
  | EvErrorbar (lbl : string)
  | EvSavefig (fname : string)
  | EvClose.

Record State := mkState {
  fs : gmap path node;
  figs : list Figure;
  log : list Event
}.

Inductive Result (A : Type) :=
  | Ok (a : A)
  | Raise (e : exn).
Arguments Ok {A} a.
Arguments Raise {A} e.

(** A statement: it returns or raises, and leaves a state either way. *)
Record M (A : Type) := Stmt { run : State → Result A * State }.
Arguments Stmt {A} run.
Arguments run {A} m st.

#[global] Instance M_ret : MRet M := λ A a, Stmt (λ st, (Ok a, st)).
#[global] Instance M_bind : MBind M := λ A B f m,
  Stmt (λ st,
    match run m st with
    | (Ok a, st') => run (f a) st'
    | (Raise e, st') => (Raise e, st')
    end).

Definition raise {A} (e : exn) : M A := Stmt (λ st, (Raise e, st)).

Definition emit (e : Event) : M unit :=
  Stmt (λ st, (Ok tt, mkState (fs st) (figs st) (log st ++ [e]))).

(** [for x in l: body x]. *)
Fixpoint for_each {A} (l : list A) (body : A → M unit) : M unit :=
  match l with
  | [] => mret tt
  | x :: l' => body x;; for_each l' body
  end.

(** ** os and pandas *)

(** Creation of the directories of [rest] below [pre], top down; an
    existing directory is kept, a file in the way is an error (of the
    class named here when the path is written without empty or [.]
    components). *)
Fixpoint makedirs_go (tree : gmap path node) (pre : path) (rest : list string)
    : Result (gmap path node) :=
  match rest with
  | [] => Ok tree
  | c :: rest' =>
      let p := pre ++ [c] in
      match tree !! p with
      | Some Dir => makedirs_go tree p rest'
      | Some (File _) =>
          Raise (match rest' with [] => FileExistsError | _ => NotADirectoryError end)
      | None => makedirs_go (<[p := Dir]> tree) p rest'
      end
  end.

(** [os.makedirs(name, exist_ok=True)]. *)
Definition os_makedirs (name : string) : M unit :=
  emit (EvMakedirs name);;
  Stmt (λ st,
    if decide (name = "") then (Raise FileNotFoundError, st)
    else match makedirs_go (fs st) [] (resolve name) with
         | Ok tree => (Ok tt, mkState tree (figs st) (log st))
         | Raise e => (Raise e, st)
         end).

(** Some proper ancestor of [p] is a regular file. *)
Definition below_file (tree : gmap path node) (p : path) : bool :=
  existsb (λ n, match tree !! take n p with
                | Some (File _) => true
                | _ => false
                end)
          (seq 1 (length p - 1)).

(** [pd.read_csv(filepath)].  The bytes of an image do not decode as
    text. *)
Definition pd_read_csv (filepath : string) : M DataFrame :=
  emit (EvReadCsv filepath);;
  Stmt (λ st,
    if decide (filepath = "") then (Raise FileNotFoundError, st)
    else match lookup_node (fs st) (resolve filepath) with
         | Some (File (CsvData df)) => (Ok df, st)
         | Some (File (PngImage _)) => (Raise UnicodeDecodeError, st)
         | Some Dir => (Raise IsADirectoryError, st)
         | None =>
             (Raise (if below_file (fs st) (resolve filepath)
                     then NotADirectoryError else FileNotFoundError), st)
         end).

(** ** pyplot *)

(** The current figure; pyplot creates one when none is open. *)
Definition update_current (g : Figure → Figure) : M unit :=
  Stmt (λ st,
    let figs' := match figs st with
                 | [] => [g (new_figure None)]
                 | f :: rest => g f :: rest
                 end in
    (Ok tt, mkState (fs st) figs' (log st))).

Definition current_figure (st : State) : Figure :=
  match figs st with
  | [] => new_figure None
  | f :: _ => f
  end.

Definition plt_figure (size : Z * Z) : M unit :=
  emit EvFigure;;
  Stmt (λ st,
    (Ok tt, mkState (fs st) (new_figure (Some size) :: figs st) (log st))).

Definition plt_xscale (v : string) : M unit := update_current (set_xscale v).
Definition plt_yscale (v : string) : M unit := update_current (set_yscale v).
Definition plt_xlabel (v : string) : M unit := update_current (set_xlabel v).
Definition plt_ylabel (v : string) : M unit := update_current (set_ylabel v).
Definition plt_title (v : string) : M unit := update_current (set_title v).
Definition plt_grid (v : bool) : M unit := update_current (set_grid v).
Definition plt_legend : M unit := update_current (set_legend true).

Definition plt_close : M unit :=
  emit EvClose;;
  Stmt (λ st, (Ok tt, mkState (fs st) (tail (figs st)) (log st))).

(** ** The script *)

Section Script.

(** The argument checks of [errorbar] belong to the plotting library and
    differ between its versions (recent ones refuse a negative [yerr]);
    they are a parameter of the script. *)
Variable errorbar_accepts : Series → bool.

Definition plt_errorbar (x : list Z) (y e : list float) (f : option string)
    (lbl : string) : M unit :=
  emit (EvErrorbar lbl);;
  if errorbar_accepts (mkSeries x y e f lbl)
  then update_current (add_series (mkSeries x y e f lbl))
  else raise ValueError.

(** Before it writes, [savefig] draws the figure, and the drawing can
    fail: on logarithmic axes the library refuses a figure whose
    [errorbar] data hold no positive finite value, and a title that is not
    valid mathtext.  This too belongs to the library and is a parameter of
    the script. *)
Variable savefig_renders : Figure → bool.

(** [plt.savefig(fname)]: the current figure is drawn and then written to
    [fname], over whatever file was there.  A figure that cannot be drawn
    is a [ValueError] and nothing is written; the directory of [fname] has
    to exist. *)
Definition plt_savefig (fname : string) : M unit :=
  emit (EvSavefig fname);;
  Stmt (λ st,
    if negb (savefig_renders (current_figure st)) then (Raise ValueError, st)
    else
    let p := resolve fname in
    match p with
    | [] => (Raise (if decide (fname = "") then FileNotFoundError
                    else IsADirectoryError), st)
    | _ =>
        match lookup_node (fs st) (parent p) with
        | Some Dir =>
            match fs st !! p with
            | Some Dir => (Raise IsADirectoryError, st)
            | _ => (Ok tt, mkState (<[p := File (PngImage (current_figure st))]> (fs st))
                                   (figs st) (log st))
            end
        | Some (File _) => (Raise NotADirectoryError, st)
        | None => (Raise FileNotFoundError, st)
        end
    end).

Definition load_data (filepath : string) : M DataFrame :=
  pd_read_csv filepath.

Definition plot_io_size (seq_data random_data : DataFrame)
    (operation device output_dir : string) : M unit :=
  plt_figure (12, 6);;
  (* Sequential I/O *)
  let means := groupby_last io_size mean seq_data in
  let ci95s := groupby_last io_size ci95 seq_data in
  plt_errorbar (index means) (values means) (values ci95s)
               (Some "o-") "Sequential";;
  (* Random I/O *)
  let means := groupby_last io_size mean random_data in
  let ci95s := groupby_last io_size ci95 random_data in
  plt_errorbar (index means) (values means) (values ci95s)
               (Some "o-") "Random";;
  plt_xscale "log";;
  plt_yscale "log";;
  plt_xlabel "I/O Size (bytes)";;
  plt_ylabel "Throughput (MB/s)";;
  plt_title ("I/O Size vs Throughput - " +:+ device +:+ " " +:+ operation);;
  plt_grid true;;
  plt_legend;;
  plt_savefig (output_dir +:+ "/io_size_" +:+ device +:+ "_" +:+ operation +:+ ".png");;
  plt_close.

(** The representative I/O sizes of the stride chart. *)
Definition io_sizes : list Z := [4096; 65536; 524288; 1048576; 10485760].

Definition plot_stride (stride_data : DataFrame)
    (operation device output_dir : string) : M unit :=
  plt_figure (12, 6);;
  for_each io_sizes (λ size,
    let data := select io_size size stride_data in
    match data with
    | [] => mret tt
    | _ =>
        let means := groupby_last stride_size mean data in
        let ci95s := groupby_last stride_size ci95 data in
        plt_errorbar (index means) (values means) (values ci95s)
                     None (stride_label size)
    end);;
  plt_xscale "log";;
  plt_yscale "log";;
  plt_xlabel "Stride Size (bytes)";;
  plt_ylabel "Throughput (MB/s)";;
  plt_title ("Stride Size vs Throughput - " +:+ device +:+ " " +:+ operation);;
  plt_grid true;;
  plt_legend;;
  plt_savefig (output_dir +:+ "/stride_" +:+ device +:+ "_" +:+ operation +:+ ".png");;
  plt_close.

Definition process_device (device_dir device_name output_dir : string)
    : M unit :=
  (* Create output directory if it doesn't exist *)
  os_makedirs output_dir;;
  (* Load all data files *)
  seq_read ← load_data (device_dir +:+ "/sequential_size_read.csv");
  seq_write ← load_data (device_dir +:+ "/sequential_size_write.csv");
  random_read ← load_data (device_dir +:+ "/random_read.csv");
  random_write ← load_data (device_dir +:+ "/random_write.csv");
  stride_read ← load_data (device_dir +:+ "/stride_read.csv");
  stride_write ← load_data (device_dir +:+ "/stride_write.csv");
  (* Generate all plots *)
  plot_io_size seq_read random_read "read" device_name output_dir;;
  plot_io_size seq_write random_write "write" device_name output_dir;;
  plot_stride stride_read "read" device_name output_dir;;
  plot_stride stride_write "write" device_name output_dir.

Definition main : M unit :=
  let output_dir := "benchmark_plots" in
  os_makedirs output_dir;;
  (* Process HDD data *)
  process_device "hdd_benchmark_results" "HDD" output_dir;;
  (* Process SSD data *)
  process_device "ssd_benchmark_results" "SSD" output_dir.

End Script.

(** ** Reference definitions, following the words of the specification *)

(** The value of column [col] in the last row whose key is [k]. *)
Definition last_row_value (key : Row → Z) (col : Row → float)
    (df : DataFrame) (k : Z) : option float :=
  col <$> last (select key k df).

(** The distinct values of a list in the order of their first occurrence. *)
Fixpoint first_occurrences (ks : list Z) : list Z :=
  match ks with
  | [] => []
  | k :: ks' => k :: filter (λ k', k' ≠ k) (first_occurrences ks')
  end.

(** The group keys in the order in which the table first shows them. *)
Definition first_appearance (key : Row → Z) (df : DataFrame) : list Z :=
  first_occurrences (map key df).

(** [f'{n/d:.1f}']: one digit after the point. *)
Definition format_f1 (n d : Z) : string :=
  let m := round_half_even (10 * Z.abs n) d in
  (if decide (n < 0) then "-" else "")
    +:+ pretty (m `div` 10) +:+ "." +:+ pretty (m `mod` 10).

(** A label with the size in KB to one decimal place. *)
Definition one_decimal_label (size : Z) : string :=
  "IO Size=" +:+ format_f1 size 1024 +:+ "KB".

(** ** What the renderers draw *)

(** The series [plot_io_size] draws for one table. *)
Definition io_series (df : DataFrame) (lbl : string) : Series :=
  mkSeries (index (groupby_last io_size mean df))
           (values (groupby_last io_size mean df))
           (values (groupby_last io_size ci95 df))
           (Some "o-") lbl.

(** The series [plot_stride] draws for one I/O size. *)
Definition stride_series_of (df : DataFrame) (size : Z) : Series :=
  let data := select io_size size df in
  mkSeries (index (groupby_last stride_size mean data))
           (values (groupby_last stride_size mean data))
           (values (groupby_last stride_size ci95 data))
           None (stride_label size).

(** The series of the sizes in [sizes] that have rows, in that order. *)
Definition series_for (df : DataFrame) (sizes : list Z) : list Series :=
  omap (λ size, match select io_size size df with
                | [] => None
                | _ => Some (stride_series_of df size)
                end) sizes.

(** A figure after the [errorbar] calls for [ss]. *)
Definition add_all (ss : list Series) (f : Figure) : Figure :=
  foldl (λ f' s, add_series s f') f ss.

Definition io_size_png (output_dir device operation : string) : string :=
  output_dir +:+ "/io_size_" +:+ device +:+ "_" +:+ operation +:+ ".png".
Definition stride_png (output_dir device operation : string) : string :=
  output_dir +:+ "/stride_" +:+ device +:+ "_" +:+ operation +:+ ".png".

(** The figures the two renderers save. *)
Definition io_figure (seq_data random_data : DataFrame)
    (operation device : string) : Figure :=
  mkFigure (Some (12, 6))
           [io_series seq_data "Sequential"; io_series random_data "Random"]
           "log" "log" "I/O Size (bytes)" "Throughput (MB/s)"
           ("I/O Size vs Throughput - " +:+ device +:+ " " +:+ operation)
           true true.
Definition stride_figure (stride_data : DataFrame)
    (operation device : string) : Figure :=
  mkFigure (Some (12, 6)) (series_for stride_data io_sizes)
           "log" "log" "Stride Size (bytes)" "Throughput (MB/s)"
           ("Stride Size vs Throughput - " +:+ device +:+ " " +:+ operation)
           true true.

(** ** Conditions on the file system *)

Definition is_dir (tree : gmap path node) (p : path) : bool :=
  match lookup_node tree p with
  | Some Dir => true
  | _ => false
  end.

Definition is_file (tree : gmap path node) (p : path) : bool :=
  match lookup_node tree p with
  | Some (File _) => true
  | _ => false
  end.

(** A file can be written at [p]: its directory exists and [p] itself is
    not a directory. *)
Definition writable (tree : gmap path node) (p : path) : bool :=
  match p with
  | [] => false
  | _ => is_dir tree (parent p) && negb (is_dir tree p)
  end.

(** [p] and all its ancestors are directories. *)
Definition dir_exists (tree : gmap path node) (p : path) : bool :=
  forallb (λ n, is_dir tree (take n p)) (seq 0 (S (length p))).

(** The outcome of [read_csv] on a path, read off the tree. *)
Definition load_result (tree : gmap path node) (filepath : string)
    : Result DataFrame :=
  if decide (filepath = "") then Raise FileNotFoundError
  else match lookup_node tree (resolve filepath) with
       | Some (File (CsvData df)) => Ok df
       | Some (File (PngImage _)) => Raise UnicodeDecodeError
       | Some Dir => Raise IsADirectoryError
       | None => Raise (if below_file tree (resolve filepath)
                        then NotADirectoryError else FileNotFoundError)
       end.

(** ** Traces *)

(** The [savefig] calls of a trace. *)
Definition saved (evs : list Event) : list string :=
  omap (λ e, match e with EvSavefig f => Some f | _ => None end) evs.

Definition is_load (e : Event) : bool :=
  match e with
  | EvReadCsv _ => true
  | _ => false
  end.

(** The trace of a call of each renderer that returns. *)
Definition io_events (fname : string) : list Event :=
  [EvFigure; EvErrorbar "Sequential"; EvErrorbar "Random";
   EvSavefig fname; EvClose].
Definition stride_events (ss : list Series) (fname : string) : list Event :=
  EvFigure :: map (λ s, EvErrorbar (label s)) ss ++ [EvSavefig fname; EvClose].

(** ** The files and calls of a device *)

(** The files of a device: the six inputs and the four charts. *)
Definition input_files : list string :=
  ["sequential_size_read.csv"; "sequential_size_write.csv";
   "random_read.csv"; "random_write.csv";
   "stride_read.csv"; "stride_write.csv"].

Definition input_paths (device_dir : string) : list string :=
  map (λ f, device_dir +:+ "/" +:+ f) input_files.

Definition chart_files (output_dir device : string) : list string :=
  [io_size_png output_dir device "read"; io_size_png output_dir device "write";
   stride_png output_dir device "read"; stride_png output_dir device "write"].

(** The charts of a complete run, in the order in which they are written. *)
Definition all_charts : list string :=
  chart_files "benchmark_plots" "HDD" ++ chart_files "benchmark_plots" "SSD".

(** The library calls a run of [process_device] may make. *)
Definition device_event (device_dir device_name output_dir : string)
    (e : Event) : Prop :=
  match e with
  | EvMakedirs name => name = output_dir
  | EvReadCsv f => f ∈ input_paths device_dir
  | EvSavefig f => f ∈ chart_files output_dir device_name
  | _ => True
  end.

(** The paths a run of [process_device] may create or write. *)
Definition device_paths (device_name output_dir : string) (p : path) : Prop :=
  p `prefix_of` resolve output_dir
  ∨ p ∈ map resolve (chart_files output_dir device_name).

(** [m] makes only the library calls that [E] allows, changes the tree
    only at the paths in [Q], and removes no directory. *)
Definition respects {A} (m : M A) (E : Event → Prop) (Q : path → Prop) : Prop :=
  ∀ st r st', run m st = (r, st') →
    (∃ evs, log st' = log st ++ evs ∧ Forall E evs)
    ∧ (∀ p, ¬ Q p → fs st' !! p = fs st !! p)
    ∧ (∀ p, is_dir (fs st) p = true → is_dir (fs st') p = true).

(** An outcome of a run from [st]: an exception raised by a load, after
    nothing but loads. *)
Definition fails_loading (res : Result unit * State) (st : State) : Prop :=
  ∃ e st' evs,
    res = (Raise e, st') ∧ log st' = log st ++ evs ∧ evs ≠ []
    ∧ forallb is_load evs = true ∧ figs st' = figs st ∧ fs st' = fs st.

(** [process_device] after its [makedirs] call: the loads and the plots. *)
Definition device_body (errorbar_accepts : Series → bool)
    (savefig_renders : Figure → bool)
    (device_dir device_name output_dir : string) : M unit :=
  seq_read ← load_data (device_dir +:+ "/sequential_size_read.csv");
  seq_write ← load_data (device_dir +:+ "/sequential_size_write.csv");
  random_read ← load_data (device_dir +:+ "/random_read.csv");
  random_write ← load_data (device_dir +:+ "/random_write.csv");
  stride_read ← load_data (device_dir +:+ "/stride_read.csv");
  stride_write ← load_data (device_dir +:+ "/stride_write.csv");
  plot_io_size errorbar_accepts savefig_renders seq_read random_read "read" device_name output_dir;;
  plot_io_size errorbar_accepts savefig_renders seq_write random_write "write" device_name output_dir;;
  plot_stride errorbar_accepts savefig_renders stride_read "read" device_name output_dir;;
  plot_stride errorbar_accepts savefig_renders stride_write "write" device_name output_dir.

(** ** A device whose charts can all be drawn *)

(** The six tables of a device. *)
Record DeviceTables := mkTables {
  seq_read_of : DataFrame;
  seq_write_of : DataFrame;
  random_read_of : DataFrame;
  random_write_of : DataFrame;
  stride_read_of : DataFrame;
  stride_write_of : DataFrame
}.

(** The six input files of [device_dir] are CSV files holding [T]. *)
Definition holds_inputs (tree : gmap path node) (device_dir : string)
    (T : DeviceTables) : Prop :=
  load_result tree (device_dir +:+ "/sequential_size_read.csv") = Ok (seq_read_of T)
  ∧ load_result tree (device_dir +:+ "/sequential_size_write.csv") = Ok (seq_write_of T)
  ∧ load_result tree (device_dir +:+ "/random_read.csv") = Ok (random_read_of T)
  ∧ load_result tree (device_dir +:+ "/random_write.csv") = Ok (random_write_of T)
  ∧ load_result tree (device_dir +:+ "/stride_read.csv") = Ok (stride_read_of T)
  ∧ load_result tree (device_dir +:+ "/stride_write.csv") = Ok (stride_write_of T).

(** [errorbar] takes every series drawn from [T]. *)
Definition plottable (errorbar_accepts : Series → bool) (T : DeviceTables)
    : bool :=
  errorbar_accepts (io_series (seq_read_of T) "Sequential")
  && errorbar_accepts (io_series (random_read_of T) "Random")
  && errorbar_accepts (io_series (seq_write_of T) "Sequential")
  && errorbar_accepts (io_series (random_write_of T) "Random")
  && forallb errorbar_accepts (series_for (stride_read_of T) io_sizes)
  && forallb errorbar_accepts (series_for (stride_write_of T) io_sizes).

(** [savefig] can draw each of the four charts of [T]. *)
Definition renderable (savefig_renders : Figure → bool) (T : DeviceTables)
    (device_name : string) : bool :=
  savefig_renders (io_figure (seq_read_of T) (random_read_of T) "read" device_name)
  && savefig_renders (io_figure (seq_write_of T) (random_write_of T) "write" device_name)
  && savefig_renders (stride_figure (stride_read_of T) "read" device_name)
  && savefig_renders (stride_figure (stride_write_of T) "write" device_name).

(** No name on the way down to [p], [p] included, is a regular file. *)
Definition unblocked (tree : gmap path node) (p : path) : bool :=
  forallb (λ n, negb (is_file tree (take n p))) (seq 1 (length p)).

(** Each chart of the device can be written, and none of them is the
    directory of another. *)
Definition charts_writable (tree : gmap path node)
    (device_name output_dir : string) : bool :=
  let ps := map resolve (chart_files output_dir device_name) in
  forallb (λ p, writable tree p && bool_decide (parent p ∉ ps)) ps.

(** The tree once the four charts of a device are written. *)
Definition write_charts (T : DeviceTables) (device_name output_dir : string)
    (tree : gmap path node) : gmap path node :=
  <[resolve (stride_png output_dir device_name "write") :=
      File (PngImage (stride_figure (stride_write_of T) "write" device_name))]>
  (<[resolve (stride_png output_dir device_name "read") :=
      File (PngImage (stride_figure (stride_read_of T) "read" device_name))]>
  (<[resolve (io_size_png output_dir device_name "write") :=
      File (PngImage (io_figure (seq_write_of T) (random_write_of T) "write" device_name))]>
  (<[resolve (io_size_png output_dir device_name "read") :=
      File (PngImage (io_figure (seq_read_of T) (random_read_of T) "read" device_name))]>
   tree))).

(** The trace of the loads and plots of a device when all of them return. *)
Definition body_events (T : DeviceTables)
    (device_dir device_name output_dir : string) : list Event :=
  map EvReadCsv (input_paths device_dir)
  ++ io_events (io_size_png output_dir device_name "read")
  ++ io_events (io_size_png output_dir device_name "write")
  ++ stride_events (series_for (stride_read_of T) io_sizes)
                   (stride_png output_dir device_name "read")
  ++ stride_events (series_for (stride_write_of T) io_sizes)
                   (stride_png output_dir device_name "write").

(** ** Sample inputs *)

(** The argument check of recent versions of the plotting library: no
    error value is negative (NaN passes). *)
Definition yerr_nonnegative (s : Series) : bool :=
  forallb (λ e, negb (PrimFloat.ltb e 0)) (yerr s).

(** The drawing on logarithmic axes: a figure with [errorbar] data needs a
    positive position and a positive finite value among them, and the
    title holds no [$]. *)
Definition positive_finite (v : float) : bool :=
  PrimFloat.ltb 0 v && PrimFloat.ltb v infinity.

Definition log_axes_render (f : Figure) : bool :=
  match series f with
  | [] => true
  | ss => existsb (λ s, existsb (λ x, bool_decide (0 < x)) (xs s)) ss
          && existsb (λ s, existsb positive_finite (ys s)) ss
  end
  && bool_decide (String.index 0 "$" (title f) = None).

Definition sample_table : DataFrame :=
  [mkRow 4096 512 10 1; mkRow 4096 1024 20 2; mkRow 65536 512 30 3].

Definition sample_tables : DeviceTables :=
  mkTables sample_table sample_table sample_table
           sample_table sample_table sample_table.

(** Two device directories with their six CSV files. *)
Definition sample_tree : gmap path node :=
  list_to_map
    (flat_map (λ d, ([d], Dir)
                    :: map (λ f, ([d; f], File (CsvData sample_table))) input_files)
              ["hdd_benchmark_results"; "ssd_benchmark_results"]).

Definition sample_state : State := mkState sample_tree [] [].

(** The same without the stride table of the HDD reads. *)
Definition incomplete_state : State :=
  mkState (delete ["hdd_benchmark_results"; "stride_read.csv"] sample_tree) [] [].

(** A tree that holds the output directory only. *)
Definition plots_state : State :=
  mkState {[ ["benchmark_plots"] := Dir ]} [] [].

(** ** Further sample inputs *)

(** A tree without the output directory. *)
Definition empty_state : State := mkState ∅ [] [].

(** A table with a negative confidence half-width. *)
Definition negative_table : DataFrame := [mkRow 4096 512 10 (-1)].

(** A table whose only mean is missing. *)
Definition nan_table : DataFrame := [mkRow 4096 512 nan 1].


(** Six tables whose stride table of the reads has the negative value. *)
Definition partial_tables : DeviceTables :=
  mkTables sample_table sample_table sample_table
           sample_table negative_table sample_table.

(** The sample tree with the output directory and that stride table for
    the HDD device. *)
Definition partial_state : State :=
  mkState (<[ ["benchmark_plots"] := Dir ]>
           (<[ ["hdd_benchmark_results"; "stride_read.csv"]
                 := File (CsvData negative_table) ]> sample_tree)) [] [].

(** The sample tree without the stride table of the SSD reads. *)
Definition ssd_incomplete_state : State :=
  mkState (delete ["ssd_benchmark_results"; "stride_read.csv"] sample_tree) [] [].

(** ** A complete run of the entry point *)

(** The input files of the two devices. *)
Definition main_inputs : list string :=
  input_paths "hdd_benchmark_results" ++ input_paths "ssd_benchmark_results".

(** The trace of a run of [main] in which every call returns. *)
Definition main_events (hdd ssd : DeviceTables) : list Event :=
  EvMakedirs "benchmark_plots"
  :: (EvMakedirs "benchmark_plots"
      :: body_events hdd "hdd_benchmark_results" "HDD" "benchmark_plots")
  ++ (EvMakedirs "benchmark_plots"
      :: body_events ssd "ssd_benchmark_results" "SSD" "benchmark_plots").

(** The four chart paths of a device hold the figures drawn from [T]: the
    I/O-size charts pair the sequential and the random table of the same
    operation, the stride charts show the stride table of their operation. *)
Definition holds_charts (tree : gmap path node) (T : DeviceTables)
    (device_name output_dir : string) : Prop :=
  tree !! resolve (io_size_png output_dir device_name "read")
    = Some (File (PngImage (io_figure (seq_read_of T) (random_read_of T)
                                      "read" device_name)))
  ∧ tree !! resolve (io_size_png output_dir device_name "write")
    = Some (File (PngImage (io_figure (seq_write_of T) (random_write_of T)
                                      "write" device_name)))
  ∧ tree !! resolve (stride_png output_dir device_name "read")
    = Some (File (PngImage (stride_figure (stride_read_of T) "read" device_name)))
  ∧ tree !! resolve (stride_png output_dir device_name "write")
    = Some (File (PngImage (stride_figure (stride_write_of T) "write" device_name))).

(** * Properties of the aggregation *)

Lemma index_groupby_last key col df :
  index (groupby_last key col df) = group_keys key df.
Proof.
  unfold index, groupby_last. rewrite map_map. simpl. apply map_id.
Qed.

Lemma elem_of_insert_key k x ks : x ∈ insert_key k ks ↔ x = k ∨ x ∈ ks.
Proof.
  induction ks as [|k' ks IH]; simpl.
  - rewrite list_elem_of_singleton. split; [by left | by intros [?|?%elem_of_nil]].
  - repeat case_decide; subst; rewrite ?elem_of_cons, ?IH; naive_solver.
Qed.

Lemma elem_of_group_keys key df k :
  k ∈ group_keys key df ↔ ∃ r, r ∈ df ∧ key r = k.
Proof.
  unfold group_keys. induction df as [|r df IH]; simpl.
  - split; [by intros ?%elem_of_nil | by intros (r & ?%elem_of_nil & _)].
  - rewrite elem_of_insert_key, IH. split.
    + intros [->|(r' & Hr' & <-)]; [exists r | exists r'];
        split; try done; [left | by right].
    + intros (r' & Hr' & <-). apply elem_of_cons in Hr' as [->|Hr']; eauto.
Qed.

Lemma insert_key_sorted k ks :
  StronglySorted Z.lt ks → StronglySorted Z.lt (insert_key k ks).
Proof.
  induction 1 as [|k' ks Hs IH Hall]; simpl.
  - repeat constructor.
  - repeat case_decide; subst.
    + constructor; [by constructor|].
      constructor; [done|]. eapply Forall_impl; [exact Hall|]. simpl. lia.
    + by constructor.
    + constructor; [done|]. apply Forall_forall. intros x Hx.
      apply elem_of_insert_key in Hx as [->|Hx]; [lia|].
      by eapply Forall_forall in Hall.
Qed.

Lemma group_keys_sorted key df : StronglySorted Z.lt (group_keys key df).
Proof.
  unfold group_keys. induction (map key df) as [|k ks IH]; simpl.
  - constructor.
  - by apply insert_key_sorted.
Qed.

(** C9: for every input table the keys of the aggregated Series are in
    strictly ascending order of key value, whatever the row order of the
    table: each key is smaller than every key after it. *)
Theorem groupby_last_keys_ascending key col (df : DataFrame) :
  StronglySorted Z.lt (index (groupby_last key col df)).
Proof.
  rewrite index_groupby_last. apply group_keys_sorted.
Qed.

(** ** Which value a group keeps *)

Lemma series_get_keyed (f : Z → float) ks k :
  series_get k (map (λ k', (k', f k')) ks) =
  if decide (k ∈ ks) then Some (f k) else None.
Proof.
  induction ks as [|k' ks IH]; simpl.
  - destruct (decide (k ∈ [])) as [Hin|]; [by apply elem_of_nil in Hin|done].
  - destruct (decide (k = k')) as [->|Hk].
    + destruct (decide (k' ∈ k' :: ks)) as [|Hn]; [done|].
      destruct Hn. by left.
    + rewrite IH. destruct (decide (k ∈ ks)) as [Hin|Hin];
        destruct (decide (k ∈ k' :: ks)) as [Hin'|Hin']; try done.
      * destruct Hin'. by right.
      * by apply elem_of_cons in Hin' as [?|?].
Qed.

Lemma series_get_groupby_last key col df k :
  series_get k (groupby_last key col df) =
  if decide (k ∈ group_keys key df)
  then Some (last_valid (map col (select key k df))) else None.
Proof. unfold groupby_last. apply series_get_keyed. Qed.

Lemma last_valid_snoc vs v : notna v = true → last_valid (vs ++ [v]) = v.
Proof.
  intros Hv. unfold last_valid.
  rewrite filter_app, (filter_cons_True _ v []) by done.
  rewrite filter_nil. by rewrite last_snoc.
Qed.

(** C1, as the specification words it, fails: with two rows for key 4096,
    the second holding NaN as its [mean], the aggregated mean of the key is
    the first row's 10 and not the value of the last row. *)
Lemma groupby_last_not_last_row :
  let df := [mkRow 4096 0 10 1; mkRow 4096 0 nan 2] in
  (2 ≤ length (select io_size 4096 df))%nat ∧
  series_get 4096 (groupby_last io_size mean df) = Some 10%float ∧
  series_get 4096 (groupby_last io_size mean df)
    ≠ last_row_value io_size mean df 4096.
Proof.
  split. { vm_compute. lia. }
  split. { by vm_compute. }
  vm_compute. by intros [=].
Qed.

(** C1 (amended): for every table and every key that occurs in it, the
    aggregated value of a column for that key is the last value of the
    column, among the rows with that key, that is not NaN, for [mean] and
    for [ci95] alike; whenever the last row with the key holds a value that
    is not NaN, the aggregated value is that row's value. *)
Theorem groupby_last_keeps_last_valid key col (df : DataFrame) r :
  r ∈ df →
  series_get (key r) (groupby_last key col df)
    = Some (last_valid (map col (select key (key r) df)))
  ∧ ∀ r', last (select key (key r) df) = Some r' → notna (col r') = true →
      series_get (key r) (groupby_last key col df) = Some (col r').
Proof.
  intros Hr. rewrite series_get_groupby_last.
  rewrite decide_True by (apply elem_of_group_keys; eauto).
  split; [done|]. intros r' [l' Hl]%last_Some Hv.
  rewrite Hl, map_app. simpl. by rewrite last_valid_snoc.
Qed.

(** The example of the specification: means 10 then 20 for key 4096. *)
Lemma groupby_last_keeps_last_valid_witness :
  let df := [mkRow 4096 0 10 1; mkRow 4096 0 20 2] in
  series_get 4096 (groupby_last io_size mean df) = Some 20%float
  ∧ series_get 4096 (groupby_last io_size ci95 df) = Some 2%float.
Proof.
  pose (r2 := mkRow 4096 0 20 2).
  assert (Hin : r2 ∈ [mkRow 4096 0 10 1; r2]) by (right; left).
  split.
  - apply (proj2 (groupby_last_keeps_last_valid io_size mean _ r2 Hin) r2);
      reflexivity.
  - apply (proj2 (groupby_last_keeps_last_valid io_size ci95 _ r2 Hin) r2);
      reflexivity.
Defined.

(** ** The order of the group keys *)

Lemma elem_of_first_occurrences ks k : k ∈ first_occurrences ks ↔ k ∈ ks.
Proof.
  induction ks as [|k' ks IH]; simpl; [done|].
  rewrite !elem_of_cons, list_elem_of_filter, IH.
  destruct (decide (k = k')); naive_solver.
Qed.

Lemma NoDup_first_occurrences ks : NoDup (first_occurrences ks).
Proof.
  induction ks as [|k ks IH]; simpl; constructor.
  - rewrite list_elem_of_filter. naive_solver.
  - by apply NoDup_filter.
Qed.

Lemma StronglySorted_lt_NoDup ks : StronglySorted Z.lt ks → NoDup ks.
Proof.
  induction 1 as [|k ks Hs IH Hall]; constructor; [|done].
  intros Hk. eapply Forall_forall in Hall; [|exact Hk]. lia.
Qed.

Lemma group_keys_first_appearance key df :
  group_keys key df ≡ₚ first_appearance key df.
Proof.
  apply NoDup_Permutation.
  - apply StronglySorted_lt_NoDup, group_keys_sorted.
  - apply NoDup_first_occurrences.
  - intros k. unfold first_appearance.
    rewrite elem_of_first_occurrences, elem_of_group_keys, list_elem_of_fmap.
    naive_solver.
Qed.

#[local] Instance Zlt_antisymm : AntiSymm (=) Z.lt.
Proof. intros x y ??. lia. Qed.

(** C2, as the specification words it, fails: for a table whose rows show
    key 8192 before key 4096 the aggregated keys are 4096, 8192, which is
    not the order of first appearance. *)
Lemma group_order_not_first_appearance :
  let df := [mkRow 8192 0 1 0; mkRow 4096 0 2 0] in
  index (groupby_last io_size mean df) = [4096; 8192] ∧
  first_appearance io_size df = [8192; 4096] ∧
  index (groupby_last io_size mean df) ≠ first_appearance io_size df.
Proof. by vm_compute. Qed.

(** C2 (amended): for every input table the aggregated keys are the keys of
    the order of first appearance, each once, rearranged in ascending
    order; the two sequences are equal exactly when the order of first
    appearance is itself ascending. *)
Theorem group_order_sorted_first_appearance key col (df : DataFrame) :
  index (groupby_last key col df) ≡ₚ first_appearance key df
  ∧ StronglySorted Z.lt (index (groupby_last key col df))
  ∧ (index (groupby_last key col df) = first_appearance key df
     ↔ StronglySorted Z.lt (first_appearance key df)).
Proof.
  rewrite index_groupby_last.
  split; [apply group_keys_first_appearance|].
  split; [apply group_keys_sorted|]. split.
  - intros <-. apply group_keys_sorted.
  - intros Hs. eapply (StronglySorted_unique Z.lt);
      eauto using group_keys_sorted, group_keys_first_appearance.
Qed.

(** * Running statements *)

Lemma run_bind {A B} (m : M A) (f : A → M B) st :
  run (m ≫= f) st =
  match run m st with
  | (Ok a, st') => run (f a) st'
  | (Raise e, st') => (Raise e, st')
  end.
Proof. reflexivity. Qed.

(** Sequencing after a statement that returns. *)
Lemma run_seq {A B} (m : M A) (f : A → M B) st a st1 res :
  run m st = (Ok a, st1) → run (f a) st1 = res → run (m ≫= f) st = res.
Proof. intros Hm <-. by rewrite run_bind, Hm. Qed.

(** Sequencing after a statement that raises. *)
Lemma run_seq_raise {A B} (m : M A) (f : A → M B) st e st1 :
  run m st = (Raise e, st1) → run (m ≫= f) st = (Raise e, st1).
Proof. intros Hm. by rewrite run_bind, Hm. Qed.

Lemma run_figure size t fg l :
  run (plt_figure size) (mkState t fg l)
  = (Ok tt, mkState t (new_figure (Some size) :: fg) (l ++ [EvFigure])).
Proof. reflexivity. Qed.

Lemma run_update_current g t f fg l :
  run (update_current g) (mkState t (f :: fg) l)
  = (Ok tt, mkState t (g f :: fg) l).
Proof. reflexivity. Qed.

Lemma run_close t f fg l :
  run plt_close (mkState t (f :: fg) l)
  = (Ok tt, mkState t fg (l ++ [EvClose])).
Proof. reflexivity. Qed.

Lemma run_savefig renders fname st :
  renders (current_figure st) = true →
  writable (fs st) (resolve fname) = true →
  run (plt_savefig renders fname) st
  = (Ok tt, mkState (<[resolve fname := File (PngImage (current_figure st))]> (fs st))
                    (figs st) (log st ++ [EvSavefig fname])).
Proof.
  destruct st as [t fg l].
  unfold writable, is_dir, plt_savefig, current_figure. rewrite run_bind. simpl.
  intros ->. simpl.
  destruct (resolve fname) as [|c p] eqn:Hp; [done|].
  intros [Hpar Hself]%andb_prop.
  destruct (lookup_node t (parent (c :: p))) as [[|?]|]; try done.
  simpl in Hself.
  destruct (t !! (c :: p)) as [[|?]|]; simpl in Hself; [done|reflexivity..].
Qed.

(** A figure that cannot be drawn is not written. *)
Lemma run_savefig_unrendered renders fname st :
  renders (current_figure st) = false →
  run (plt_savefig renders fname) st
  = (Raise ValueError, mkState (fs st) (figs st) (log st ++ [EvSavefig fname])).
Proof.
  destruct st as [t fg l].
  unfold plt_savefig, current_figure. rewrite run_bind. simpl. by intros ->.
Qed.

(** [savefig] raises when the file cannot be written. *)
Lemma run_savefig_raise renders fname st :
  writable (fs st) (resolve fname) = false →
  ∃ e, run (plt_savefig renders fname) st
       = (Raise e, mkState (fs st) (figs st) (log st ++ [EvSavefig fname])).
Proof.
  intros Hw. destruct (renders (current_figure st)) eqn:Hr;
    [|eexists; by apply run_savefig_unrendered].
  revert Hr Hw. destruct st as [t fg l].
  unfold writable, is_dir, plt_savefig, current_figure. rewrite run_bind. simpl.
  intros ->. simpl.
  destruct (resolve fname) as [|c p] eqn:Hp; [eauto|].
  intros Hw. destruct (lookup_node t (parent (c :: p))) as [[|?]|];
    eauto. simpl in Hw.
  destruct (t !! (c :: p)) as [[|?]|]; simpl in Hw; by eauto.
Qed.

Lemma run_read_csv filepath st :
  run (pd_read_csv filepath) st
  = (load_result (fs st) filepath,
     mkState (fs st) (figs st) (log st ++ [EvReadCsv filepath])).
Proof.
  unfold pd_read_csv, load_result. rewrite run_bind. simpl.
  destruct (decide (filepath = "")); [done|].
  by destruct (lookup_node (fs st) (resolve filepath)) as [[|[]]|].
Qed.

(** The outcome of [os.makedirs], read off the tree. *)
Lemma run_makedirs name st :
  run (os_makedirs name) st =
  let l := log st ++ [EvMakedirs name] in
  if decide (name = "") then (Raise FileNotFoundError, mkState (fs st) (figs st) l)
  else match makedirs_go (fs st) [] (resolve name) with
       | Ok tree => (Ok tt, mkState tree (figs st) l)
       | Raise e => (Raise e, mkState (fs st) (figs st) l)
       end.
Proof.
  unfold os_makedirs. rewrite run_bind. simpl.
  destruct (decide (name = "")); [done|].
  by destruct (makedirs_go (fs st) [] (resolve name)).
Qed.

(** * The renderers *)

Lemma add_all_eq ss f :
  add_all ss f =
  mkFigure (figsize f) (series f ++ ss) (xscale f) (yscale f) (xlabel f)
           (ylabel f) (title f) (grid f) (legend f).
Proof.
  revert f. induction ss as [|s ss IH]; intros f.
  - simpl. rewrite app_nil_r. by destruct f.
  - unfold add_all in *. simpl. rewrite IH. simpl. by rewrite <- app_assoc.
Qed.

Lemma for_each_cons {A} (x : A) l body :
  for_each (x :: l) body = (body x;; for_each l body).
Proof. reflexivity. Qed.

Lemma series_for_cons df size sizes :
  series_for df (size :: sizes) =
  match select io_size size df with
  | [] => series_for df sizes
  | _ => stride_series_of df size :: series_for df sizes
  end.
Proof. unfold series_for. simpl. by destruct (select io_size size df). Qed.

Section Renderers.

Variable errorbar_accepts : Series → bool.
Variable savefig_renders : Figure → bool.

Lemma run_errorbar x y e f lbl t fig fg l :
  errorbar_accepts (mkSeries x y e f lbl) = true →
  run (plt_errorbar errorbar_accepts x y e f lbl) (mkState t (fig :: fg) l)
  = (Ok tt, mkState t (add_series (mkSeries x y e f lbl) fig :: fg)
                    (l ++ [EvErrorbar lbl])).
Proof.
  intros H. unfold plt_errorbar. rewrite run_bind. simpl. by rewrite H.
Qed.

Lemma run_errorbar_raise x y e f lbl st :
  errorbar_accepts (mkSeries x y e f lbl) = false →
  run (plt_errorbar errorbar_accepts x y e f lbl) st
  = (Raise ValueError, mkState (fs st) (figs st) (log st ++ [EvErrorbar lbl])).
Proof.
  intros H. unfold plt_errorbar. rewrite run_bind. simpl. by rewrite H.
Qed.

(** One decoration step of a renderer. *)
Ltac decorate := eapply run_seq; [apply run_update_current|].

Lemma run_plot_io_size seq_data random_data operation device output_dir st :
  errorbar_accepts (io_series seq_data "Sequential") = true →
  errorbar_accepts (io_series random_data "Random") = true →
  savefig_renders (io_figure seq_data random_data operation device) = true →
  writable (fs st) (resolve (io_size_png output_dir device operation)) = true →
  run (plot_io_size errorbar_accepts savefig_renders seq_data random_data
                    operation device output_dir) st
  = (Ok tt,
     mkState (<[resolve (io_size_png output_dir device operation) :=
                  File (PngImage (io_figure seq_data random_data operation device))]>
                (fs st))
             (figs st)
             (log st ++ io_events (io_size_png output_dir device operation))).
Proof.
  destruct st as [t fg l]. cbn [fs figs log].
  intros Hseq Hrnd Hdraw Hw. unfold plot_io_size.
  eapply run_seq; [apply run_figure|].
  eapply run_seq; [by apply run_errorbar|].
  eapply run_seq; [by apply run_errorbar|].
  do 7 decorate.
  eapply run_seq; [apply run_savefig; [exact Hdraw|exact Hw]|].
  cbn [current_figure figs fs log].
  rewrite run_close. unfold io_events. by rewrite <- !app_assoc.
Qed.

Lemma run_stride_loop df sizes t fig fg l :
  Forall (λ s, errorbar_accepts s = true) (series_for df sizes) →
  run (for_each sizes (λ size,
         let data := select io_size size df in
         match data with
         | [] => mret tt
         | _ =>
             let means := groupby_last stride_size mean data in
             let ci95s := groupby_last stride_size ci95 data in
             plt_errorbar errorbar_accepts (index means) (values means)
                          (values ci95s) None (stride_label size)
         end))
      (mkState t (fig :: fg) l)
  = (Ok tt, mkState t (add_all (series_for df sizes) fig :: fg)
                    (l ++ map (λ s, EvErrorbar (label s)) (series_for df sizes))).
Proof.
  revert fig l. induction sizes as [|size sizes IH]; intros fig l Hacc.
  - simpl. by rewrite app_nil_r.
  - rewrite series_for_cons in *. rewrite for_each_cons.
    destruct (select io_size size df) as [|r data] eqn:Hsel.
    + eapply run_seq; [reflexivity|by apply IH].
    + apply Forall_cons in Hacc as [Hs Hacc].
      assert (Hser : stride_series_of df size =
                mkSeries (index (groupby_last stride_size mean (r :: data)))
                         (values (groupby_last stride_size mean (r :: data)))
                         (values (groupby_last stride_size ci95 (r :: data)))
                         None (stride_label size))
        by (unfold stride_series_of; by rewrite Hsel).
      rewrite Hser in *.
      eapply run_seq; [by apply run_errorbar|].
      rewrite IH by done. cbn [add_all foldl map label].
      by rewrite <- app_assoc.
Qed.

Lemma run_plot_stride stride_data operation device output_dir st :
  Forall (λ s, errorbar_accepts s = true) (series_for stride_data io_sizes) →
  savefig_renders (stride_figure stride_data operation device) = true →
  writable (fs st) (resolve (stride_png output_dir device operation)) = true →
  run (plot_stride errorbar_accepts savefig_renders stride_data operation device
                   output_dir) st
  = (Ok tt,
     mkState (<[resolve (stride_png output_dir device operation) :=
                  File (PngImage (stride_figure stride_data operation device))]>
                (fs st))
             (figs st)
             (log st ++ stride_events (series_for stride_data io_sizes)
                                      (stride_png output_dir device operation))).
Proof.
  destruct st as [t fg l]. cbn [fs figs log].
  intros Hacc Hdraw Hw. unfold plot_stride.
  eapply run_seq; [apply run_figure|].
  eapply run_seq; [by apply run_stride_loop|]. rewrite add_all_eq.
  do 7 decorate.
  eapply run_seq; [apply run_savefig; [exact Hdraw|exact Hw]|].
  cbn [current_figure figs fs log].
  rewrite run_close. unfold stride_events, stride_figure.
  simpl. by rewrite <- !app_assoc.
Qed.

(** The stride renderer when the figure cannot be drawn: [savefig] raises,
    no file is written and the figure stays open. *)
Lemma run_plot_stride_unrendered stride_data operation device output_dir st :
  Forall (λ s, errorbar_accepts s = true) (series_for stride_data io_sizes) →
  savefig_renders (stride_figure stride_data operation device) = false →
  run (plot_stride errorbar_accepts savefig_renders stride_data operation device
                   output_dir) st
  = (Raise ValueError,
     mkState (fs st)
             (stride_figure stride_data operation device :: figs st)
             (log st ++ EvFigure
                :: map (λ s, EvErrorbar (label s)) (series_for stride_data io_sizes)
                ++ [EvSavefig (stride_png output_dir device operation)])).
Proof.
  destruct st as [t fg l]. cbn [fs figs log].
  intros Hacc Hdraw. unfold plot_stride.
  eapply run_seq; [apply run_figure|].
  eapply run_seq; [by apply run_stride_loop|]. rewrite add_all_eq.
  do 7 decorate.
  apply run_seq_raise.
  rewrite run_savefig_unrendered by exact Hdraw.
  cbn [current_figure figs fs log]. unfold stride_figure.
  simpl. by rewrite <- !app_assoc.
Qed.

End Renderers.

(** * The stride chart *)

Lemma forallb_Forall {A} (f : A → bool) l :
  forallb f l = true → Forall (λ x, f x = true) l.
Proof.
  induction l as [|x l IH]; simpl; [constructor|].
  intros [??]%andb_prop. constructor; auto.
Qed.

Lemma select_nil_iff key k df : select key k df = [] ↔ k ∉ map key df.
Proof.
  unfold select. induction df as [|r df IH].
  - split; [intros _; apply not_elem_of_nil | done].
  - change (map key (r :: df)) with (key r :: map key df).
    rewrite not_elem_of_cons.
    destruct (decide (key r = k)) as [Hk|Hk].
    + rewrite filter_cons_True by done. split; [done|]. by intros [? _].
    + rewrite filter_cons_False, IH by done. naive_solver.
Qed.

Lemma series_for_present df sizes :
  series_for df sizes =
  map (stride_series_of df) (filter (λ size, size ∈ map io_size df) sizes).
Proof.
  induction sizes as [|size sizes IH]; [done|].
  rewrite series_for_cons, IH.
  destruct (decide (size ∈ map io_size df)) as [Hin|Hin].
  - rewrite filter_cons_True by done.
    destruct (select io_size size df) eqn:Hsel; [|done].
    by apply select_nil_iff in Hsel.
  - rewrite filter_cons_False by done.
    apply select_nil_iff in Hin. by rewrite Hin.
Qed.

Lemma stride_label_whole_kb size :
  size ∈ io_sizes → stride_label size = "IO Size=" +:+ pretty (size `div` 1024) +:+ "KB".
Proof.
  unfold io_sizes. intros H.
  repeat (apply elem_of_cons in H as [->|H]); try by vm_compute.
  by apply elem_of_nil in H.
Qed.

Lemma filter_none {A} (P : A → Prop) `{∀ x, Decision (P x)} l :
  Forall (λ x, ¬ P x) l → filter P l = [].
Proof.
  induction 1 as [|x l Hx Hl IH]; [done|]. by rewrite filter_cons_False.
Qed.

Lemma saved_app evs1 evs2 : saved (evs1 ++ evs2) = saved evs1 ++ saved evs2.
Proof. apply omap_app. Qed.

Lemma saved_errorbars (ss : list Series) :
  saved (map (λ s, EvErrorbar (label s)) ss) = [].
Proof. by induction ss. Qed.

Lemma saved_stride_events l ss fname :
  saved (l ++ stride_events ss fname) = saved l ++ [fname].
Proof.
  unfold stride_events. rewrite saved_app. f_equal.
  change (EvFigure :: ?x) with ([EvFigure] ++ x).
  by rewrite !saved_app, saved_errorbars.
Qed.

Lemma saved_snoc_other l e :
  (∀ f, e ≠ EvSavefig f) → saved (l ++ [e]) = saved l.
Proof.
  intros He. rewrite saved_app. destruct e; simpl; try by rewrite app_nil_r.
  by destruct (He fname).
Qed.

Section StrideChart.

Variable errorbar_accepts : Series → bool.
Variable savefig_renders : Figure → bool.

(** The loop of the stride renderer ends at the first series that
    [errorbar] refuses. *)
Lemma run_stride_loop_rejected df sizes t fig fg l :
  forallb errorbar_accepts (series_for df sizes) = false →
  ∃ fig' l',
    run (for_each sizes (λ size,
           let data := select io_size size df in
           match data with
           | [] => mret tt
           | _ =>
               let means := groupby_last stride_size mean data in
               let ci95s := groupby_last stride_size ci95 data in
               plt_errorbar errorbar_accepts (index means) (values means)
                            (values ci95s) None (stride_label size)
           end))
        (mkState t (fig :: fg) l)
    = (Raise ValueError, mkState t (fig' :: fg) l')
    ∧ saved l' = saved l.
Proof.
  revert fig l. induction sizes as [|size sizes IH]; intros fig l Hrej; [done|].
  rewrite series_for_cons in Hrej. rewrite for_each_cons.
  destruct (select io_size size df) as [|r data] eqn:Hsel.
  - destruct (IH fig l Hrej) as (fig' & l' & Hrun & Hsaved).
    exists fig', l'. split; [|done].
    eapply run_seq; [reflexivity|exact Hrun].
  - assert (Hser : stride_series_of df size =
              mkSeries (index (groupby_last stride_size mean (r :: data)))
                       (values (groupby_last stride_size mean (r :: data)))
                       (values (groupby_last stride_size ci95 (r :: data)))
                       None (stride_label size))
      by (unfold stride_series_of; by rewrite Hsel).
    cbn [forallb] in Hrej. rewrite Hser in Hrej.
    match type of Hrej with ?b && _ = false => destruct b eqn:Hacc end.
    + destruct (IH (add_series (stride_series_of df size) fig)
                   (l ++ [EvErrorbar (stride_label size)]) Hrej)
        as (fig' & l' & Hrun & Hsaved).
      exists fig', l'. split.
      * eapply run_seq; [by apply run_errorbar|]. rewrite <- Hser. exact Hrun.
      * by rewrite Hsaved, saved_snoc_other.
    + eexists fig, _. split.
      * eapply run_seq_raise. by apply run_errorbar_raise.
      * by rewrite saved_snoc_other.
Qed.


(** C3 (amended): for each of the five sizes that has a row in the table,
    the chart that is written holds the series of that size, and its label
    gives the size in KB as a whole number, with no digit after the point:
    "IO Size=4KB" for 4096 bytes.  The chart is written when [errorbar]
    takes the series and [savefig] can draw the figure and write the
    file. *)
Theorem plot_stride_label_whole_kb (df : DataFrame)
    operation device output_dir st size r :
  forallb errorbar_accepts (series_for df io_sizes) = true →
  savefig_renders (stride_figure df operation device) = true →
  writable (fs st) (resolve (stride_png output_dir device operation)) = true →
  size ∈ io_sizes → r ∈ df → io_size r = size →
  ∃ st' fig,
    run (plot_stride errorbar_accepts savefig_renders df operation device output_dir) st
      = (Ok tt, st') ∧
    fs st' !! resolve (stride_png output_dir device operation)
      = Some (File (PngImage fig)) ∧
    stride_series_of df size ∈ series fig ∧
    label (stride_series_of df size)
      = "IO Size=" +:+ pretty (size `div` 1024) +:+ "KB".
Proof.
  intros Hacc%forallb_Forall Hdraw Hw Hsize Hr Hio.
  eexists _, _. split; [by apply run_plot_stride|].
  cbn [fs]. split; [by rewrite lookup_insert_eq|].
  cbn [stride_figure series]. rewrite series_for_present. split.
  - apply list_elem_of_fmap. exists size. split; [done|].
    apply list_elem_of_filter. split; [|done].
    apply list_elem_of_fmap. eauto.
  - by apply stride_label_whole_kb.
Qed.

(** C10 (amended): the stride renderer does not write its PNG file for
    every table.  When the file can be written, it returns and has written
    the file for every table whose series [errorbar] takes and whose figure
    [savefig] can draw; for a table without a row of any of the five sizes
    nothing is asked of [errorbar], and a chart with no series is written
    when the empty figure can be drawn.  When the series are taken and the
    figure cannot be drawn, [savefig] raises [ValueError]; when [errorbar]
    refuses a series, the loop raises [ValueError] and [savefig] is not
    called; either way the tree is left as it was. *)
Theorem plot_stride_writes_chart (df : DataFrame)
    operation device output_dir st :
  writable (fs st) (resolve (stride_png output_dir device operation)) = true →
  (forallb errorbar_accepts (series_for df io_sizes) = true →
   savefig_renders (stride_figure df operation device) = true →
   ∃ st' fig,
     run (plot_stride errorbar_accepts savefig_renders df operation device output_dir) st
       = (Ok tt, st') ∧
     fs st' !! resolve (stride_png output_dir device operation)
       = Some (File (PngImage fig)) ∧
     saved (log st') = saved (log st) ++ [stride_png output_dir device operation])
  ∧ ((∀ r, r ∈ df → io_size r ∉ io_sizes) →
     savefig_renders (stride_figure df operation device) = true →
     ∃ st' fig,
       run (plot_stride errorbar_accepts savefig_renders df operation device output_dir) st
         = (Ok tt, st') ∧
       fs st' !! resolve (stride_png output_dir device operation)
         = Some (File (PngImage fig)) ∧
       series fig = [] ∧
       saved (log st') = saved (log st) ++ [stride_png output_dir device operation])
  ∧ (forallb errorbar_accepts (series_for df io_sizes) = true →
     savefig_renders (stride_figure df operation device) = false →
     ∃ st',
       run (plot_stride errorbar_accepts savefig_renders df operation device output_dir) st
         = (Raise ValueError, st') ∧
       fs st' = fs st)
  ∧ (forallb errorbar_accepts (series_for df io_sizes) = false →
     ∃ st',
       run (plot_stride errorbar_accepts savefig_renders df operation device output_dir) st
         = (Raise ValueError, st') ∧
       fs st' = fs st ∧
       saved (log st') = saved (log st)).
Proof.
  intros Hw.
  assert (Hgen : Forall (λ s, errorbar_accepts s = true) (series_for df io_sizes) →
    savefig_renders (stride_figure df operation device) = true →
    ∃ st' fig,
     run (plot_stride errorbar_accepts savefig_renders df operation device output_dir) st
       = (Ok tt, st') ∧
     fs st' !! resolve (stride_png output_dir device operation)
       = Some (File (PngImage fig)) ∧
     series fig = series_for df io_sizes ∧
     saved (log st') = saved (log st) ++ [stride_png output_dir device operation]).
  { intros Hacc Hdraw. eexists _, _. split; [by apply run_plot_stride|].
    cbn [fs log]. split; [by rewrite lookup_insert_eq|]. split; [done|].
    apply saved_stride_events. }
  split; [|split; [|split]].
  - intros Hacc%forallb_Forall Hdraw.
    destruct (Hgen Hacc Hdraw) as (st' & fig & ? & ? & _ & ?). eauto.
  - intros Hnone Hdraw.
    assert (Hempty : series_for df io_sizes = []).
    { rewrite series_for_present.
      rewrite filter_none; [done|].
      apply Forall_forall. intros size Hsize (r & -> & Hr)%list_elem_of_fmap.
      by apply (Hnone r). }
    rewrite Hempty in Hgen.
    destruct (Hgen (Forall_nil_2 _) Hdraw) as (st' & fig & ? & ? & ? & ?).
    eauto 10.
  - intros Hacc%forallb_Forall Hdraw.
    eexists. split; [by apply run_plot_stride_unrendered|done].
  - intros Hrej. destruct st as [t fg l].
    destruct (run_stride_loop_rejected df io_sizes t
                (new_figure (Some (12, 6))) fg (l ++ [EvFigure]) Hrej)
      as (fig' & l' & Hrun & Hsaved).
    eexists. split.
    { unfold plot_stride. eapply run_seq; [apply run_figure|].
      eapply run_seq_raise. exact Hrun. }
    cbn [fs figs log]. split; [done|].
    by rewrite Hsaved, saved_snoc_other.
Qed.

End StrideChart.

(** * Directories *)

Lemma is_dir_lookup (tree : gmap path node) p : p ≠ [] → is_dir tree p = true ↔ tree !! p = Some Dir.
Proof.
  intros Hp. unfold is_dir, lookup_node. destruct p as [|c p]; [done|].
  destruct (tree !! (c :: p)) as [[|?]|]; naive_solver.
Qed.

Lemma makedirs_go_spec rest : ∀ tree pre tree',
  makedirs_go tree pre rest = Ok tree' →
  (∀ p, (∀ n, (0 < n ≤ length rest)%nat → p ≠ pre ++ take n rest) →
        tree' !! p = tree !! p)
  ∧ (∀ p, tree !! p = Some Dir → tree' !! p = Some Dir)
  ∧ (∀ n, (0 < n ≤ length rest)%nat → tree' !! (pre ++ take n rest) = Some Dir).
Proof.
  induction rest as [|c rest IH]; intros tree pre tree' Hgo.
  - injection Hgo as <-. repeat split; [done..|]. simpl. lia.
  - cbn [makedirs_go] in Hgo.
    assert (Hshift : ∀ n, (pre ++ [c]) ++ take n rest = pre ++ take (S n) (c :: rest))
      by (intros n; by rewrite <- app_assoc).
    assert (Hstep : ∀ tree1, makedirs_go tree1 (pre ++ [c]) rest = Ok tree' →
      tree1 !! (pre ++ [c]) = Some Dir →
      (∀ p, p ≠ pre ++ [c] → tree1 !! p = tree !! p) →
      (∀ p, tree !! p = Some Dir → tree1 !! p = Some Dir) →
      (∀ p, (∀ n, (0 < n ≤ length (c :: rest))%nat → p ≠ pre ++ take n (c :: rest)) →
            tree' !! p = tree !! p)
      ∧ (∀ p, tree !! p = Some Dir → tree' !! p = Some Dir)
      ∧ (∀ n, (0 < n ≤ length (c :: rest))%nat →
            tree' !! (pre ++ take n (c :: rest)) = Some Dir)).
    { intros tree1 Hgo1 Hc Hsame Hdirs.
      destruct (IH _ _ _ Hgo1) as (Hout & Hkeep & Hmade).
      split; [|split].
      - intros p Hp. rewrite Hout.
        + apply Hsame. apply (Hp 1%nat). simpl. lia.
        + intros n Hn. rewrite Hshift. apply Hp. simpl. lia.
      - auto.
      - intros [|n] Hn; [lia|]. destruct n as [|n].
        + simpl. rewrite take_0. auto.
        + rewrite <- Hshift. apply Hmade. simpl in Hn. lia. }
    destruct (tree !! (pre ++ [c])) as [[|?]|] eqn:Hc; [|done|].
    + by apply (Hstep tree).
    + apply (Hstep _ Hgo).
      * by rewrite lookup_insert_eq.
      * intros p Hp. by rewrite lookup_insert_ne.
      * intros p Hp. rewrite lookup_insert_ne; [done|]. congruence.
Qed.

Lemma makedirs_go_existing rest : ∀ tree pre,
  (∀ n, (0 < n ≤ length rest)%nat → tree !! (pre ++ take n rest) = Some Dir) →
  makedirs_go tree pre rest = Ok tree.
Proof.
  induction rest as [|c rest IH]; intros tree pre Hdirs; [done|].
  cbn [makedirs_go]. pose proof (Hdirs 1%nat) as Hc. simpl in Hc.
  rewrite take_0 in Hc. rewrite Hc by lia.
  apply IH. intros n Hn. rewrite <- app_assoc. apply (Hdirs (S n)). simpl. lia.
Qed.

Lemma dir_exists_spec tree p :
  dir_exists tree p = true ↔
  ∀ n, (0 < n ≤ length p)%nat → tree !! take n p = Some Dir.
Proof.
  unfold dir_exists. rewrite forallb_forall. split.
  - intros H n Hn. apply is_dir_lookup.
    + destruct p, n; simpl in *; try done; lia.
    + apply H, in_seq. lia.
  - intros H n Hn%in_seq. destruct n as [|n]; [by rewrite take_0|].
    apply is_dir_lookup.
    + destruct p; simpl in *; [lia|done].
    + apply H. lia.
Qed.

Lemma makedirs_go_dir_exists tree p tree' :
  makedirs_go tree [] p = Ok tree' → dir_exists tree' p = true.
Proof.
  intros (_ & _ & Hmade)%makedirs_go_spec. by apply dir_exists_spec.
Qed.

Lemma dir_exists_preserved tree tree' p :
  (∀ q, is_dir tree q = true → is_dir tree' q = true) →
  dir_exists tree p = true → dir_exists tree' p = true.
Proof.
  unfold dir_exists. rewrite !forallb_forall. auto.
Qed.

(** With no regular file on the way, [makedirs_go] returns. *)
Lemma makedirs_go_unblocked rest : ∀ (tree : gmap path node) pre,
  (∀ n c, (0 < n ≤ length rest)%nat →
          tree !! (pre ++ take n rest) ≠ Some (File c)) →
  ∃ tree', makedirs_go tree pre rest = Ok tree'.
Proof.
  induction rest as [|c rest IH]; intros tree pre Hfree; [by eexists|].
  cbn [makedirs_go].
  assert (Hshift : ∀ n, (pre ++ [c]) ++ take n rest = pre ++ take (S n) (c :: rest))
    by (intros n; by rewrite <- app_assoc).
  destruct (tree !! (pre ++ [c])) as [[|x]|] eqn:Hc.
  - apply IH. intros n x Hn. rewrite Hshift. apply Hfree. simpl. lia.
  - exfalso. apply (Hfree 1%nat x); [simpl; lia|]. simpl. by rewrite take_0.
  - apply IH. intros n x Hn. rewrite lookup_insert_ne.
    + rewrite Hshift. apply Hfree. simpl. lia.
    + intros Heq. apply (f_equal length) in Heq.
      rewrite !length_app, length_take in Heq. simpl in Heq. lia.
Qed.

Lemma unblocked_spec tree p :
  unblocked tree p = true →
  ∀ n c, (0 < n ≤ length p)%nat → tree !! take n p ≠ Some (File c).
Proof.
  unfold unblocked. rewrite forallb_forall. intros H n c Hn Hfile.
  assert (Hin : In n (seq 1 (length p))) by (apply in_seq; lia).
  apply H in Hin. unfold is_file, lookup_node in Hin.
  destruct (take n p) as [|x q] eqn:Htake.
  - apply (f_equal length) in Htake. rewrite length_take in Htake.
    simpl in Htake. lia.
  - by rewrite Hfile in Hin.
Qed.

(** * What a statement may touch *)

Lemma respects_ret {A} (a : A) E Q : respects (mret a) E Q.
Proof.
  intros st r st' [= <- <-]. split; [|done].
  exists []. by rewrite app_nil_r.
Qed.

Lemma respects_bind {A B} (m : M A) (f : A → M B) E Q :
  respects m E Q → (∀ a, respects (f a) E Q) → respects (m ≫= f) E Q.
Proof.
  intros Hm Hf st r st'. rewrite run_bind.
  destruct (run m st) as [[a|e] st1] eqn:Hrun;
    destruct (Hm _ _ _ Hrun) as ((evs1 & Hl1 & He1) & Hfs1 & Hd1).
  - intros Hrun2. destruct (Hf a _ _ _ Hrun2) as ((evs2 & Hl2 & He2) & Hfs2 & Hd2).
    split; [|split].
    + exists (evs1 ++ evs2). rewrite Hl2, Hl1, app_assoc. split; [done|].
      by apply Forall_app.
    + intros p Hp. by rewrite Hfs2, Hfs1.
    + auto.
  - intros [= <- <-]. eauto.
Qed.

(** A statement that leaves the tree alone. *)
Lemma respects_quiet {A} (m : M A) E Q :
  (∀ st, ∃ r fg evs,
     run m st = (r, mkState (fs st) fg (log st ++ evs)) ∧ Forall E evs) →
  respects m E Q.
Proof.
  intros H st r st' Hrun. destruct (H st) as (r' & fg & evs & Hrun' & HE).
  rewrite Hrun' in Hrun. injection Hrun as <- <-. simpl. eauto.
Qed.

Lemma respects_figure size E Q : E EvFigure → respects (plt_figure size) E Q.
Proof.
  intros HE. apply respects_quiet. intros [t fg l].
  eexists _, _, [EvFigure]. split; [apply run_figure|]. by constructor.
Qed.

Lemma respects_update_current g E Q : respects (update_current g) E Q.
Proof.
  apply respects_quiet. intros st. eexists _, _, []. split; [|constructor].
  unfold update_current. simpl. by rewrite app_nil_r.
Qed.

Lemma respects_close E Q : E EvClose → respects plt_close E Q.
Proof.
  intros HE. apply respects_quiet. intros st.
  eexists _, _, [EvClose]. split; [reflexivity|]. by constructor.
Qed.

Lemma respects_read_csv filepath E Q :
  E (EvReadCsv filepath) → respects (pd_read_csv filepath) E Q.
Proof.
  intros HE. apply respects_quiet. intros st.
  eexists _, _, [EvReadCsv filepath]. split; [apply run_read_csv|].
  by constructor.
Qed.

Lemma respects_savefig renders fname E Q :
  E (EvSavefig fname) → Q (resolve fname) →
  respects (plt_savefig renders fname) E Q.
Proof.
  intros HE HQ st r st' Hrun.
  assert (Hquiet : ∀ e,
    run (plt_savefig renders fname) st
    = (Raise e, mkState (fs st) (figs st) (log st ++ [EvSavefig fname])) →
    (∃ evs, log st' = log st ++ evs ∧ Forall E evs)
    ∧ (∀ p, ¬ Q p → fs st' !! p = fs st !! p)
    ∧ (∀ p, is_dir (fs st) p = true → is_dir (fs st') p = true)).
  { intros e He. rewrite He in Hrun. injection Hrun as <- <-. simpl.
    split; [|done]. exists [EvSavefig fname]. split; [done|]. by constructor. }
  destruct (writable (fs st) (resolve fname)) eqn:Hw;
    [|destruct (run_savefig_raise renders _ _ Hw) as [e He]; by eapply Hquiet].
  destruct (renders (current_figure st)) eqn:Hr;
    [|eapply Hquiet; by apply run_savefig_unrendered].
  rewrite run_savefig in Hrun by done. injection Hrun as <- <-. simpl.
  split; [|split].
  - exists [EvSavefig fname]. split; [done|]. by constructor.
  - intros p Hp. apply lookup_insert_ne. by intros <-.
  - intros p Hdir. destruct (decide (p = resolve fname)) as [->|Hne].
    + unfold writable in Hw. destruct (resolve fname); [done|].
      apply andb_prop in Hw as [_ Hw]. by rewrite Hdir in Hw.
    + unfold is_dir, lookup_node in *. destruct p; [done|].
      by rewrite lookup_insert_ne.
Qed.

Lemma respects_makedirs name E Q :
  E (EvMakedirs name) → (∀ p, p `prefix_of` resolve name → Q p) →
  respects (os_makedirs name) E Q.
Proof.
  intros HE HQ st r st'. rewrite run_makedirs. cbv zeta.
  assert (Hlog : ∃ evs, log st ++ [EvMakedirs name] = log st ++ evs ∧ Forall E evs).
  { exists [EvMakedirs name]. split; [done|]. by constructor. }
  destruct (decide (name = "")); [intros [= <- <-]; by simpl|].
  destruct (makedirs_go (fs st) [] (resolve name)) as [tree|e] eqn:Hgo;
    intros [= <- <-]; simpl; [|done].
  apply makedirs_go_spec in Hgo as (Hout & Hkeep & _).
  split; [done|]. split.
  - intros p Hp. apply Hout. intros k _ ->. apply Hp, HQ.
    apply prefix_take.
  - intros p Hdir. destruct p as [|c p]; [done|].
    apply is_dir_lookup in Hdir; [|done]. apply is_dir_lookup; auto.
Qed.

Lemma respects_for_each {A} (l : list A) body E Q :
  (∀ x, respects (body x) E Q) → respects (for_each l body) E Q.
Proof.
  intros Hbody. induction l as [|x l IH].
  - apply respects_ret.
  - rewrite for_each_cons. apply respects_bind; auto.
Qed.

Section Respects.

Variable errorbar_accepts : Series → bool.
Variable savefig_renders : Figure → bool.

Lemma respects_errorbar x y e f lbl E Q :
  E (EvErrorbar lbl) → respects (plt_errorbar errorbar_accepts x y e f lbl) E Q.
Proof.
  intros HE. apply respects_quiet. intros st.
  destruct (errorbar_accepts (mkSeries x y e f lbl)) eqn:Hacc.
  - destruct st as [t [|fig fg] l]; eexists _, _, [EvErrorbar lbl];
      (split; [|by constructor]).
    + unfold plt_errorbar. rewrite run_bind. simpl. rewrite Hacc. reflexivity.
    + by apply run_errorbar.
  - eexists _, _, [EvErrorbar lbl]. split; [by apply run_errorbar_raise|].
    by constructor.
Qed.

(** The statements of a renderer, one at a time. *)
Ltac respects_prim :=
  first [ by apply respects_figure
        | by apply respects_errorbar
        | apply respects_update_current
        | by apply respects_close
        | by apply respects_savefig ].
Ltac respects_seq :=
  repeat (apply respects_bind; [respects_prim | intros _]); respects_prim.

Lemma respects_plot_io_size seq_data random_data operation device output_dir E Q :
  (∀ lbl, E (EvErrorbar lbl)) → E EvFigure → E EvClose →
  E (EvSavefig (io_size_png output_dir device operation)) →
  Q (resolve (io_size_png output_dir device operation)) →
  respects (plot_io_size errorbar_accepts savefig_renders seq_data random_data operation
                         device output_dir) E Q.
Proof. intros ?????. unfold plot_io_size. respects_seq. Qed.

Lemma respects_plot_stride stride_data operation device output_dir E Q :
  (∀ lbl, E (EvErrorbar lbl)) → E EvFigure → E EvClose →
  E (EvSavefig (stride_png output_dir device operation)) →
  Q (resolve (stride_png output_dir device operation)) →
  respects (plot_stride errorbar_accepts savefig_renders stride_data operation device
                        output_dir) E Q.
Proof.
  intros ?????. unfold plot_stride.
  apply respects_bind; [respects_prim | intros _].
  apply respects_bind; [|intros _; respects_seq].
  apply respects_for_each. intros size. cbv zeta.
  destruct (select io_size size stride_data);
    [apply respects_ret | by apply respects_errorbar].
Qed.

Lemma process_device_unfold device_dir device_name output_dir :
  process_device errorbar_accepts savefig_renders device_dir device_name output_dir
  = (os_makedirs output_dir;;
     device_body errorbar_accepts savefig_renders device_dir device_name output_dir).
Proof. reflexivity. Qed.

Lemma respects_device_body device_dir device_name output_dir :
  respects (device_body errorbar_accepts savefig_renders device_dir device_name output_dir)
           (device_event device_dir device_name output_dir)
           (device_paths device_name output_dir).
Proof.
  assert (Hin : ∀ f, f ∈ chart_files output_dir device_name →
            device_event device_dir device_name output_dir (EvSavefig f)
            ∧ device_paths device_name output_dir (resolve f)).
  { intros f Hf. split; [done|]. right. by apply list_elem_of_fmap_2. }
  assert (Hev : ∀ lbl, device_event device_dir device_name output_dir
                         (EvErrorbar lbl)) by done.
  unfold device_body.
  do 6 (apply respects_bind;
        [apply respects_read_csv; simpl; unfold input_paths; simpl;
         repeat first [by left | right]
        |intros ?]).
  apply respects_bind; [|intros _].
  { apply respects_plot_io_size; try done; apply Hin; unfold chart_files;
      repeat first [by left | right]. }
  apply respects_bind; [|intros _].
  { apply respects_plot_io_size; try done; apply Hin; unfold chart_files;
      repeat first [by left | right]. }
  apply respects_bind; [|intros _].
  { apply respects_plot_stride; try done; apply Hin; unfold chart_files;
      repeat first [by left | right]. }
  apply respects_plot_stride; try done; apply Hin; unfold chart_files;
    repeat first [by left | right].
Qed.

Lemma respects_process_device device_dir device_name output_dir :
  respects (process_device errorbar_accepts savefig_renders device_dir device_name output_dir)
           (device_event device_dir device_name output_dir)
           (device_paths device_name output_dir).
Proof.
  rewrite process_device_unfold. apply respects_bind.
  - apply respects_makedirs; [done|]. intros p Hp. by left.
  - intros _. apply respects_device_body.
Qed.

End Respects.

(** * The device orchestrator and the entry point *)

Lemma makedirs_go_adds_dirs rest : ∀ (tree : gmap path node) pre tree',
  makedirs_go tree pre rest = Ok tree' →
  ∀ p, tree' !! p = tree !! p ∨ (tree !! p = None ∧ tree' !! p = Some Dir).
Proof.
  induction rest as [|c rest IH]; intros tree pre tree' Hgo p.
  - injection Hgo as <-. by left.
  - cbn [makedirs_go] in Hgo.
    destruct (tree !! (pre ++ [c])) as [[|?]|] eqn:Hc; [eauto|done|].
    destruct (IH _ _ _ Hgo p) as [Hp|[Hp1 Hp2]].
    + destruct (decide (p = pre ++ [c])) as [->|Hne].
      * rewrite lookup_insert_eq in Hp. right. by rewrite Hc.
      * rewrite lookup_insert_ne in Hp by done. by left.
    + destruct (decide (p = pre ++ [c])) as [->|Hne].
      * by rewrite lookup_insert_eq in Hp1.
      * rewrite lookup_insert_ne in Hp1 by done. by right.
Qed.

Lemma fails_loading_step filepath (k : DataFrame → M unit) st :
  (∀ df, load_result (fs st) filepath = Ok df →
     fails_loading
       (run (k df) (mkState (fs st) (figs st) (log st ++ [EvReadCsv filepath])))
       (mkState (fs st) (figs st) (log st ++ [EvReadCsv filepath]))) →
  fails_loading (run (pd_read_csv filepath ≫= k) st) st.
Proof.
  intros Hk. rewrite run_bind, run_read_csv.
  destruct (load_result (fs st) filepath) as [df|e].
  - destruct (Hk df eq_refl)
      as (e & st' & evs & -> & Hlog & _ & Hevs & Hfigs & Hfs).
    exists e, st', (EvReadCsv filepath :: evs). simpl in *.
    by rewrite Hlog, <- app_assoc.
  - eexists e, _, [EvReadCsv filepath]. by simpl.
Qed.

Lemma saved_device_events device_dir device_name output_dir evs f :
  Forall (device_event device_dir device_name output_dir) evs →
  f ∈ saved evs → f ∈ chart_files output_dir device_name.
Proof.
  induction 1 as [|ev evs Hev _ IH]; [by intros ?%elem_of_nil|].
  destruct ev; simpl; auto. intros [->|?]%elem_of_cons; auto.
Qed.

Lemma run_makedirs_ok name st st1 :
  run (os_makedirs name) st = (Ok tt, st1) →
  name ≠ "" ∧ makedirs_go (fs st) [] (resolve name) = Ok (fs st1)
  ∧ figs st1 = figs st ∧ log st1 = log st ++ [EvMakedirs name].
Proof.
  rewrite run_makedirs. cbv zeta. destruct (decide (name = "")); [done|].
  destruct (makedirs_go (fs st) [] (resolve name)); [|done].
  by intros [= <-].
Qed.

Section Orchestrator.

Variable errorbar_accepts : Series → bool.
Variable savefig_renders : Figure → bool.

(** C6: when one of the six input files of a device is missing,
    [process_device] raises; after the [makedirs] call the run has made
    nothing but loads, the last of which raised when [makedirs] returned,
    so no renderer was started, no figure was opened, [savefig] was not
    called, and no file of the tree was created or changed: none of the
    four charts of the device is produced. *)
Theorem process_device_missing_input device_dir device_name output_dir st f :
  f ∈ input_paths device_dir →
  lookup_node (fs st) (resolve f) = None →
  ∃ e st' evs,
    run (process_device errorbar_accepts savefig_renders device_dir device_name output_dir) st
      = (Raise e, st') ∧
    log st' = log st ++ EvMakedirs output_dir :: evs ∧
    forallb is_load evs = true ∧
    (∀ st1, run (os_makedirs output_dir) st = (Ok tt, st1) → evs ≠ []) ∧
    figs st' = figs st ∧
    saved (log st') = saved (log st) ∧
    (∀ p c, fs st' !! p = Some (File c) → fs st !! p = Some (File c)).
Proof.
  intros Hf Hmiss.
  assert (Hsaved : ∀ evs, forallb is_load evs = true → saved evs = []).
  { induction evs as [|[] evs IH]; simpl; try done. }
  assert (Hend : ∀ (l : list Event) evs, forallb is_load evs = true →
            saved (l ++ EvMakedirs output_dir :: evs) = saved l).
  { intros l evs Hevs. rewrite saved_app. simpl. rewrite (Hsaved evs) by done.
    by rewrite app_nil_r. }
  rewrite process_device_unfold, run_bind, run_makedirs. cbv zeta.
  destruct (decide (output_dir = "")).
  { eexists _, _, []. repeat split; try done. simpl. by rewrite Hend. }
  destruct (makedirs_go (fs st) [] (resolve output_dir)) as [tree|e] eqn:Hgo.
  2:{ eexists _, _, []. repeat split; try done. simpl. by rewrite Hend. }
  pose proof (makedirs_go_adds_dirs _ _ _ _ Hgo) as Hadd.
  assert (Hfail : ∀ df, load_result tree f ≠ Ok df).
  { intros df. unfold load_result. destruct (decide (f = "")); [done|].
    unfold lookup_node in *. destruct (resolve f) as [|c p]; [done|].
    destruct (Hadd (c :: p)) as [->|[_ ->]]; [|done].
    rewrite Hmiss. by destruct (below_file tree (c :: p)). }
  cut (fails_loading
         (run (device_body errorbar_accepts savefig_renders device_dir device_name output_dir)
              (mkState tree (figs st) (log st ++ [EvMakedirs output_dir])))
         (mkState tree (figs st) (log st ++ [EvMakedirs output_dir]))).
  { intros (e & st' & evs & -> & Hlog & Hne & Hevs & Hfigs & Hfs). simpl in *.
    exists e, st', evs. rewrite Hlog, <- app_assoc. simpl.
    repeat split; try done.
    - by rewrite Hend.
    - intros p c. rewrite Hfs. intros Hp.
      destruct (Hadd p) as [<-|[_ Hd]]; [done|congruence]. }
  unfold input_paths, input_files in Hf. simpl in Hf.
  unfold device_body, load_data.
  repeat (apply elem_of_cons in Hf as [->|Hf]);
    [simpl in Hfail;
     repeat (apply fails_loading_step; cbn [fs figs log]; intros ? ?;
             try (exfalso; eapply Hfail; eassumption)) ..
    | by apply elem_of_nil in Hf].
Qed.

(** C7: [process_device] begins with [makedirs(output_dir, exist_ok=True)].
    When the directory is there already the call raises nothing and changes
    nothing.  When no name on the way to the directory is a regular file,
    the call returns, and after it the directory and all its parents are
    directories of the tree: those that were missing have been created,
    and nothing else has changed.  Whenever the call returns, the directory
    and all its parents are directories of the tree.  In a run of
    [process_device] either that call raises, and then the run ends there
    with no [savefig] call, or the directory exists from that call on, and
    is still there at the end of the run, so every chart is written after
    it exists. *)
Theorem process_device_ensures_output_dir device_dir device_name output_dir st :
  (output_dir ≠ "" → dir_exists (fs st) (resolve output_dir) = true →
   run (os_makedirs output_dir) st
     = (Ok tt, mkState (fs st) (figs st) (log st ++ [EvMakedirs output_dir])))
  ∧ (output_dir ≠ "" → unblocked (fs st) (resolve output_dir) = true →
     ∃ tree,
       run (os_makedirs output_dir) st
         = (Ok tt, mkState tree (figs st) (log st ++ [EvMakedirs output_dir]))
       ∧ dir_exists tree (resolve output_dir) = true
       ∧ (∀ n, (0 < n ≤ length (resolve output_dir))%nat →
               tree !! take n (resolve output_dir) = Some Dir)
       ∧ (∀ p, tree !! p = fs st !! p
               ∨ (fs st !! p = None ∧ tree !! p = Some Dir
                  ∧ p `prefix_of` resolve output_dir)))
  ∧ (∀ st1, run (os_makedirs output_dir) st = (Ok tt, st1) →
       dir_exists (fs st1) (resolve output_dir) = true)
  ∧ (∀ r st',
       run (process_device errorbar_accepts savefig_renders device_dir device_name output_dir) st
         = (r, st') →
       (∃ e, r = Raise e ∧ run (os_makedirs output_dir) st = (Raise e, st')
             ∧ saved (log st') = saved (log st))
       ∨ (∃ st1 evs,
            run (os_makedirs output_dir) st = (Ok tt, st1)
            ∧ dir_exists (fs st1) (resolve output_dir) = true
            ∧ log st1 = log st ++ [EvMakedirs output_dir]
            ∧ log st' = log st1 ++ evs
            ∧ dir_exists (fs st') (resolve output_dir) = true)).
Proof.
  split; [|split; [|split]].
  - intros Hne Hdir. rewrite run_makedirs. cbv zeta.
    rewrite decide_False by done.
    rewrite makedirs_go_existing; [done|]. by apply dir_exists_spec.
  - intros Hne Hfree. rewrite run_makedirs. cbv zeta.
    rewrite decide_False by done.
    destruct (makedirs_go_unblocked (resolve output_dir) (fs st) [])
      as [tree Hgo].
    { intros n c Hn. by apply unblocked_spec. }
    rewrite Hgo. exists tree. split; [done|].
    split; [by eapply makedirs_go_dir_exists|].
    split; [by apply dir_exists_spec; eapply makedirs_go_dir_exists|].
    intros p. destruct (makedirs_go_adds_dirs _ _ _ _ Hgo p) as [Hp|[Hp1 Hp2]];
      [by left|].
    destruct (decide (p `prefix_of` resolve output_dir)) as [Hpre|Hpre];
      [by right|].
    left. apply makedirs_go_spec in Hgo as (Hout & _). apply Hout.
    intros n _ ->. apply Hpre, prefix_take.
  - intros st1 (_ & Hgo & _)%run_makedirs_ok.
    by eapply makedirs_go_dir_exists.
  - intros r st'. rewrite process_device_unfold, run_bind.
    destruct (run (os_makedirs output_dir) st) as [[[]|e] st1] eqn:Hmk.
    + intros Hbody. right.
      destruct (run_makedirs_ok _ _ _ Hmk) as (_ & Hgo & _ & Hlog).
      destruct (respects_device_body errorbar_accepts savefig_renders device_dir device_name
                  output_dir _ _ _ Hbody) as ((evs & Hevs & _) & _ & Hdirs).
      exists st1, evs. repeat split; try done.
      * by eapply makedirs_go_dir_exists.
      * eapply dir_exists_preserved; [exact Hdirs|].
        by eapply makedirs_go_dir_exists.
    + intros [= <- <-]. left. exists e. repeat split; try done.
      rewrite run_makedirs in Hmk. cbv zeta in Hmk.
      destruct (decide (output_dir = "")).
      * injection Hmk as <- <-. simpl. by rewrite saved_app, app_nil_r.
      * destruct (makedirs_go (fs st) [] (resolve output_dir)); [done|].
        injection Hmk as <- <-. simpl. by rewrite saved_app, app_nil_r.
Qed.

(** C8: [main] runs the HDD device first and the SSD device after it has
    returned.  When the HDD run raises, [main] ends there with the same
    exception: the calls made are those of the HDD device, no [savefig]
    call names an SSD chart, and the tree is unchanged at the paths of the
    four SSD charts. *)
Theorem main_hdd_before_ssd st st0 r st1 :
  run (os_makedirs "benchmark_plots") st = (Ok tt, st0) →
  run (process_device errorbar_accepts savefig_renders "hdd_benchmark_results" "HDD"
                      "benchmark_plots") st0 = (r, st1) →
  match r with
  | Ok _ =>
      run (main errorbar_accepts savefig_renders) st
      = run (process_device errorbar_accepts savefig_renders "ssd_benchmark_results" "SSD"
                            "benchmark_plots") st1
  | Raise e =>
      run (main errorbar_accepts savefig_renders) st = (Raise e, st1)
      ∧ ∃ evs,
          log st1 = log st ++ EvMakedirs "benchmark_plots" :: evs
          ∧ Forall (device_event "hdd_benchmark_results" "HDD" "benchmark_plots") evs
          ∧ ∀ f, f ∈ chart_files "benchmark_plots" "SSD" →
                 (f ∉ saved evs) ∧ (fs st1 !! resolve f = fs st !! resolve f)
  end.
Proof.
  intros Hmk Hhdd. unfold main. destruct r as [[]|e].
  - eapply run_seq; [exact Hmk|]. eapply run_seq; [exact Hhdd|done].
  - split.
    { eapply run_seq; [exact Hmk|]. by eapply run_seq_raise. }
    destruct (respects_process_device errorbar_accepts savefig_renders _ _ _ _ _ _ Hhdd)
      as ((evs & Hlog & Hevs) & Hfs & _).
    destruct (run_makedirs_ok _ _ _ Hmk) as (_ & Hgo & _ & Hlog0).
    apply makedirs_go_spec in Hgo as (Hout & _).
    exists evs. split; [by rewrite Hlog, Hlog0, <- app_assoc|].
    split; [done|]. intros f Hf. split.
    + intros Hin. eapply saved_device_events in Hin; [|exact Hevs].
      unfold chart_files in Hf, Hin.
      repeat (apply elem_of_cons in Hf as [->|Hf]);
        try (by apply elem_of_nil in Hf);
        repeat (apply elem_of_cons in Hin as [Hin|Hin]; [discriminate|]);
        by apply elem_of_nil in Hin.
    + rewrite Hfs; [apply Hout|].
      * intros n Hn Heq. unfold chart_files in Hf.
        assert (n = 1%nat) as -> by (vm_compute in Hn; lia).
        repeat (apply elem_of_cons in Hf as [->|Hf]);
          try (by apply elem_of_nil in Hf); vm_compute in Heq; discriminate.
      * unfold chart_files in Hf.
        repeat (apply elem_of_cons in Hf as [->|Hf]);
          try (by apply elem_of_nil in Hf);
          (intros [[k Hk]|Hin];
           [ vm_compute in Hk; discriminate
           | unfold chart_files in Hin; simpl in Hin;
             repeat (apply elem_of_cons in Hin as [Hin|Hin];
                     [vm_compute in Hin; discriminate|]);
             by apply elem_of_nil in Hin ]).
Qed.

End Orchestrator.

(** * A complete run *)

Lemma writable_insert_file (tree : gmap path node) p q c :
  writable tree p = true → q ≠ parent p →
  writable (<[q := File c]> tree) p = true.
Proof.
  unfold writable. destruct p as [|a p]; [done|].
  intros [Hpar Hself]%andb_prop Hq. apply andb_true_intro. split.
  - unfold is_dir, lookup_node in *.
    destruct (parent (a :: p)) as [|b p']; [done|].
    by rewrite lookup_insert_ne.
  - unfold is_dir, lookup_node in *.
    destruct (decide (q = a :: p)) as [->|Hne].
    + by rewrite lookup_insert_eq.
    + by rewrite lookup_insert_ne.
Qed.

Lemma load_result_ok (tree : gmap path node) f df :
  load_result tree f = Ok df ↔
  f ≠ "" ∧ lookup_node tree (resolve f) = Some (File (CsvData df)).
Proof.
  unfold load_result. destruct (decide (f = "")); [naive_solver|].
  destruct (lookup_node tree (resolve f)) as [[|[]]|];
    try destruct (below_file tree (resolve f)); naive_solver.
Qed.

Lemma load_result_missing (tree : gmap path node) f df :
  lookup_node tree (resolve f) = None → load_result tree f ≠ Ok df.
Proof. intros Hmiss (_ & Hf)%load_result_ok. congruence. Qed.

Lemma load_result_ok_ext (tree tree' : gmap path node) f df :
  tree' !! resolve f = tree !! resolve f →
  load_result tree f = Ok df → load_result tree' f = Ok df.
Proof.
  intros H. rewrite !load_result_ok. unfold lookup_node.
  destruct (resolve f); [done|]. by rewrite H.
Qed.

Lemma existsb_ext_in {A} (f g : A → bool) l :
  (∀ x, In x l → f x = g x) → existsb f l = existsb g l.
Proof.
  induction l as [|x l IH]; [done|]. intros H. simpl.
  rewrite (H x) by (by left). rewrite IH; [done|]. intros y Hy. apply H. by right.
Qed.

(** A load depends on the nodes on the way to the file only. *)
Lemma load_result_ext (tree tree' : gmap path node) f :
  (∀ n, (0 < n ≤ length (resolve f))%nat →
        tree' !! take n (resolve f) = tree !! take n (resolve f)) →
  load_result tree' f = load_result tree f.
Proof.
  intros H. unfold load_result.
  destruct (decide (f = "")); [done|].
  assert (Hbelow : below_file tree' (resolve f) = below_file tree (resolve f)).
  { unfold below_file. apply existsb_ext_in. intros k Hk%in_seq.
    rewrite H; [done|lia]. }
  assert (Hnode : lookup_node tree' (resolve f) = lookup_node tree (resolve f)).
  { unfold lookup_node. destruct (resolve f) as [|c p] eqn:Hp; [done|].
    specialize (H (length (c :: p))). rewrite take_ge in H by done.
    apply H. simpl. lia. }
  by rewrite Hbelow, Hnode.
Qed.

Lemma write_charts_other (T : DeviceTables) (device_name output_dir : string)
    (tree : gmap path node) (q : path) :
  q ∉ map resolve (chart_files output_dir device_name) →
  write_charts T device_name output_dir tree !! q = tree !! q.
Proof.
  unfold chart_files, write_charts. simpl. intros Hq.
  apply not_elem_of_cons in Hq as [? Hq]. apply not_elem_of_cons in Hq as [? Hq].
  apply not_elem_of_cons in Hq as [? Hq]. apply not_elem_of_cons in Hq as [? _].
  by rewrite !lookup_insert_ne.
Qed.

Lemma write_charts_png (T : DeviceTables) (device_name output_dir : string)
    (tree : gmap path node) (f : string) :
  f ∈ chart_files output_dir device_name →
  ∃ fig, write_charts T device_name output_dir tree !! resolve f
         = Some (File (PngImage fig)).
Proof.
  unfold chart_files, write_charts. intros Hf.
  repeat (apply elem_of_cons in Hf as [->|Hf]);
    [..|by apply elem_of_nil in Hf];
    repeat match goal with
    | |- ∃ _, <[?p := _]> _ !! ?q = _ =>
        destruct (decide (p = q)) as [->|];
          [rewrite lookup_insert_eq; eauto | rewrite lookup_insert_ne by done]
    end; by rewrite lookup_insert_eq; eauto.
Qed.

(** The paths of the script are distinct. *)
Lemma plots_not_chart device_name :
  device_name = "HDD" ∨ device_name = "SSD" →
  ["benchmark_plots"] ∉ map resolve (chart_files "benchmark_plots" device_name).
Proof. intros [-> | ->]; compute_done. Qed.

Lemma charts_not_plots :
  Forall (λ f, resolve f ≠ ["benchmark_plots"]) all_charts.
Proof. compute_done. Qed.

Lemma inputs_not_plots device_dir :
  device_dir = "hdd_benchmark_results" ∨ device_dir = "ssd_benchmark_results" →
  Forall (λ f, resolve f ≠ ["benchmark_plots"]
               ∧ resolve f ∉ map resolve (chart_files "benchmark_plots" "HDD"))
         (input_paths device_dir).
Proof. intros [-> | ->]; compute_done. Qed.

Lemma ssd_charts_not_hdd :
  Forall (λ f, resolve f ∉ map resolve (chart_files "benchmark_plots" "HDD"))
         (chart_files "benchmark_plots" "SSD").
Proof. compute_done. Qed.

Lemma hdd_charts_not_ssd :
  Forall (λ f, resolve f ∉ map resolve (chart_files "benchmark_plots" "SSD"))
         (chart_files "benchmark_plots" "HDD").
Proof. compute_done. Qed.

Lemma saved_loads fs' : saved (map EvReadCsv fs') = [].
Proof. by induction fs'. Qed.

Lemma saved_body_events T device_dir device_name output_dir :
  saved (body_events T device_dir device_name output_dir)
  = chart_files output_dir device_name.
Proof.
  assert (Hstride : ∀ ss f, saved (stride_events ss f) = [f])
    by (intros ss f; apply (saved_stride_events [])).
  unfold body_events. by rewrite !saved_app, saved_loads, !Hstride.
Qed.

Section CompleteRun.

Variable errorbar_accepts : Series → bool.
Variable savefig_renders : Figure → bool.

Lemma run_device_body device_dir device_name output_dir T st :
  holds_inputs (fs st) device_dir T →
  plottable errorbar_accepts T = true →
  renderable savefig_renders T device_name = true →
  charts_writable (fs st) device_name output_dir = true →
  run (device_body errorbar_accepts savefig_renders device_dir device_name output_dir) st
  = (Ok tt, mkState (write_charts T device_name output_dir (fs st)) (figs st)
                    (log st ++ body_events T device_dir device_name output_dir)).
Proof.
  intros (H1 & H2 & H3 & H4 & H5 & H6) Hplot Hdraw Hw.
  unfold plottable in Hplot. unfold renderable in Hdraw.
  unfold charts_writable, chart_files in Hw. simpl in Hw.
  repeat match goal with H : _ && _ = true |- _ =>
    apply andb_prop in H as [? ?] end.
  repeat match goal with H : bool_decide _ = true |- _ =>
    apply bool_decide_eq_true in H;
    repeat (apply not_elem_of_cons in H as [? H]) end.
  unfold device_body, load_data.
  do 6 (eapply run_seq;
        [rewrite run_read_csv; cbn [fs figs log];
         first [rewrite H1|rewrite H2|rewrite H3|rewrite H4|rewrite H5|rewrite H6];
         reflexivity|]).
  eapply run_seq; [by apply run_plot_io_size|]. cbn [fs figs log].
  eapply run_seq.
  { apply run_plot_io_size; try done. cbn [fs]. by apply writable_insert_file. }
  cbn [fs figs log].
  eapply run_seq.
  { apply run_plot_stride; [by apply forallb_Forall|done|]. cbn [fs].
    by do 2 (apply writable_insert_file; [|done]). }
  cbn [fs figs log].
  rewrite run_plot_stride; [|by apply forallb_Forall|done|];
    [|cbn [fs]; by do 3 (apply writable_insert_file; [|done])].
  cbn [fs figs log]. unfold write_charts, body_events, input_paths, input_files.
  cbn [map]. rewrite <- !app_assoc. reflexivity.
Qed.

Lemma run_process_device device_dir device_name output_dir T st :
  output_dir ≠ "" →
  dir_exists (fs st) (resolve output_dir) = true →
  holds_inputs (fs st) device_dir T →
  plottable errorbar_accepts T = true →
  renderable savefig_renders T device_name = true →
  charts_writable (fs st) device_name output_dir = true →
  run (process_device errorbar_accepts savefig_renders device_dir device_name output_dir) st
  = (Ok tt, mkState (write_charts T device_name output_dir (fs st)) (figs st)
                    (log st ++ EvMakedirs output_dir
                            :: body_events T device_dir device_name output_dir)).
Proof.
  intros Hne Hdir Hin Hplot Hdraw Hw. rewrite process_device_unfold.
  eapply run_seq.
  { rewrite run_makedirs. cbv zeta. rewrite decide_False by done.
    rewrite makedirs_go_existing; [done|]. by apply dir_exists_spec. }
  rewrite (run_device_body _ _ _ T) by done. cbn [fs figs log].
  by rewrite <- app_assoc.
Qed.

Lemma is_dir_ext (tree tree' : gmap path node) p :
  tree' !! p = tree !! p → is_dir tree' p = is_dir tree p.
Proof. intros H. unfold is_dir, lookup_node. destruct p; by rewrite ?H. Qed.

Lemma writable_in_dir (tree : gmap path node) p :
  p ≠ [] → is_dir tree (parent p) = true → is_dir tree p = false →
  writable tree p = true.
Proof. intros Hp Hpar Hself. unfold writable. destruct p; [done|]. by rewrite Hpar, Hself. Qed.

(** The charts of a device of the script can be written once
    [benchmark_plots] exists and no chart path is a directory. *)
Lemma charts_writable_plots (tree : gmap path node) device_name :
  device_name = "HDD" ∨ device_name = "SSD" →
  is_dir tree ["benchmark_plots"] = true →
  (∀ f, f ∈ chart_files "benchmark_plots" device_name →
        is_dir tree (resolve f) = false) →
  charts_writable tree device_name "benchmark_plots" = true.
Proof.
  intros Hname Hdir Hfree. unfold charts_writable.
  apply forallb_forall. intros p Hp%list_elem_of_In.
  apply list_elem_of_fmap in Hp as (f & -> & Hf).
  apply andb_true_intro. split.
  - pose proof (Hfree f Hf) as Hself. revert Hself.
    unfold chart_files in Hf.
    destruct Hname as [-> | ->];
      repeat (apply elem_of_cons in Hf as [->|Hf]);
      try (by apply elem_of_nil in Hf);
      intros Hself; by apply writable_in_dir.
  - apply bool_decide_eq_true_2. unfold chart_files in *.
    destruct Hname as [-> | ->];
      repeat (apply elem_of_cons in Hf as [->|Hf]);
      try (by apply elem_of_nil in Hf);
      cbn [map]; intros Hin;
      repeat (apply elem_of_cons in Hin as [Hin|Hin];
              [vm_compute in Hin; discriminate|]);
      by apply elem_of_nil in Hin.
Qed.

(** Evaluation of the paths of closed file names. *)
Ltac eval_paths :=
  repeat match goal with
  | |- context [resolve ?s] =>
      let v := eval vm_compute in (resolve s) in
      change (resolve s) with v
  end.

Lemma holds_inputs_ext (tree tree' : gmap path node) device_dir T :
  (∀ f, f ∈ input_paths device_dir → tree' !! resolve f = tree !! resolve f) →
  holds_inputs tree device_dir T → holds_inputs tree' device_dir T.
Proof.
  intros Hsame (H1 & H2 & H3 & H4 & H5 & H6).
  unfold holds_inputs.
  repeat split;
    (eapply load_result_ok_ext; [|eassumption]);
    apply Hsame; unfold input_paths, input_files; cbn [map];
    repeat first [by left | right].
Qed.

(** C5: a complete run.  When the two device directories hold the six CSV
    files each, the plotting library takes them ([errorbar] the series
    drawn from them, [savefig] the eight figures), and nothing in the tree
    is in the way ([benchmark_plots] is not a file and no chart path is a
    directory), [main] returns after exactly eight [savefig] calls, which
    write the PNG files [io_size_{DEVICE}_{operation}.png] and
    [stride_{DEVICE}_{operation}.png] of [benchmark_plots], four for HDD and
    then four for SSD; no other file of the tree is created or changed. *)
Theorem main_writes_eight_charts (hdd ssd : DeviceTables) st :
  holds_inputs (fs st) "hdd_benchmark_results" hdd →
  holds_inputs (fs st) "ssd_benchmark_results" ssd →
  plottable errorbar_accepts hdd = true →
  plottable errorbar_accepts ssd = true →
  renderable savefig_renders hdd "HDD" = true →
  renderable savefig_renders ssd "SSD" = true →
  is_file (fs st) ["benchmark_plots"] = false →
  forallb (λ f, negb (is_dir (fs st) (resolve f))) all_charts = true →
  all_charts =
    ["benchmark_plots/io_size_HDD_read.png"; "benchmark_plots/io_size_HDD_write.png";
     "benchmark_plots/stride_HDD_read.png"; "benchmark_plots/stride_HDD_write.png";
     "benchmark_plots/io_size_SSD_read.png"; "benchmark_plots/io_size_SSD_write.png";
     "benchmark_plots/stride_SSD_read.png"; "benchmark_plots/stride_SSD_write.png"]
  ∧ ∃ st',
      run (main errorbar_accepts savefig_renders) st = (Ok tt, st') ∧
      saved (log st') = saved (log st) ++ all_charts ∧
      (∀ f, f ∈ all_charts →
            ∃ fig, fs st' !! resolve f = Some (File (PngImage fig))) ∧
      (∀ p c, fs st' !! p = Some (File c) →
              p ∈ map resolve all_charts ∨ fs st !! p = Some (File c)).
Proof.
  intros Hhdd Hssd Hphdd Hpssd Hrhdd Hrssd Hplots Hfree. split; [reflexivity|].
  (* the first [makedirs] *)
  assert (∃ tree0, makedirs_go (fs st) [] (resolve "benchmark_plots") = Ok tree0)
    as [tree0 Hgo].
  { eval_paths. cbn [makedirs_go app]. unfold is_file, lookup_node in Hplots.
    destruct (fs st !! ["benchmark_plots"]) as [[|?]|]; by eauto. }
  pose proof (makedirs_go_dir_exists _ _ _ Hgo) as Hdir0.
  pose proof (makedirs_go_adds_dirs _ _ _ _ Hgo) as Hadd.
  apply makedirs_go_spec in Hgo as Hspec. destruct Hspec as (Hout & _ & _).
  assert (Hsame0 : ∀ p, p ≠ ["benchmark_plots"] → tree0 !! p = fs st !! p).
  { intros p Hp. apply Hout. intros n Hn. revert Hn. eval_paths.
    cbn [length]. intros Hn. assert (n = 1%nat) as -> by lia. done. }
  assert (Hmk : run (os_makedirs "benchmark_plots") st
           = (Ok tt, mkState tree0 (figs st)
                       (log st ++ [EvMakedirs "benchmark_plots"]))).
  { rewrite run_makedirs. cbv zeta. rewrite decide_False by done.
    by rewrite Hgo. }
  assert (Hnd : ∀ f, f ∈ all_charts → is_dir tree0 (resolve f) = false).
  { intros f Hf. rewrite (is_dir_ext (fs st)).
    - rewrite forallb_forall in Hfree. apply negb_true_iff, Hfree.
      by apply list_elem_of_In.
    - apply Hsame0. by apply (proj1 (Forall_forall _ _) charts_not_plots). }
  assert (Hd0 : tree0 !! ["benchmark_plots"] = Some Dir).
  { apply (proj1 (dir_exists_spec _ _) Hdir0 1%nat). by vm_compute. }
  set (tree1 := write_charts hdd "HDD" "benchmark_plots" tree0).
  assert (Hd1 : tree1 !! ["benchmark_plots"] = Some Dir).
  { unfold tree1. rewrite write_charts_other; [done|].
    apply plots_not_chart. by left. }
  eexists. split.
  { unfold main. eapply run_seq; [exact Hmk|].
    eapply run_seq.
    { apply (run_process_device _ _ _ hdd); cbn [fs figs log]; try done.
      - eapply holds_inputs_ext; [|exact Hhdd]. intros f Hf. apply Hsame0.
        eapply (proj1 (Forall_forall _ _) (inputs_not_plots _ (or_introl eq_refl))).
        done.
      - apply charts_writable_plots; [by left| |].
        + by apply is_dir_lookup.
        + intros f Hf. apply Hnd. apply elem_of_app. by left. }
    cbn [fs figs log]. fold tree1.
    apply (run_process_device _ _ _ ssd); cbn [fs figs log]; try done.
    - apply dir_exists_spec. intros n Hn.
      assert (n = 1%nat) as -> by (vm_compute in Hn; lia). exact Hd1.
    - eapply holds_inputs_ext; [|exact Hssd]. intros f Hf.
      pose proof (proj1 (Forall_forall _ _)
                    (inputs_not_plots _ (or_intror eq_refl)) f Hf) as [? ?].
      unfold tree1. rewrite write_charts_other by done. by apply Hsame0.
    - apply charts_writable_plots; [by right| |].
      + by apply is_dir_lookup.
      + intros f Hf. unfold tree1. rewrite (is_dir_ext tree0).
        * apply Hnd. apply elem_of_app. by right.
        * apply write_charts_other.
          by apply (proj1 (Forall_forall _ _) ssd_charts_not_hdd). }
  cbn [fs figs log]. fold tree1. split; [|split].
  - assert (Hskip : ∀ name evs, saved (EvMakedirs name :: evs) = saved evs)
      by done.
    rewrite !saved_app, !Hskip, !saved_body_events.
    unfold all_charts. by rewrite app_nil_r, <- !app_assoc.
  - intros f [Hf|Hf]%elem_of_app.
    + rewrite write_charts_other
        by (by apply (proj1 (Forall_forall _ _) hdd_charts_not_ssd)).
      by apply write_charts_png.
    + by apply write_charts_png.
  - intros p c Hp.
    destruct (decide (p ∈ map resolve all_charts)) as [|Hnot]; [by left|right].
    unfold all_charts in Hnot. rewrite map_app in Hnot.
    apply not_elem_of_app in Hnot as [? ?].
    unfold tree1 in Hp. rewrite !write_charts_other in Hp by done.
    destruct (Hadd p) as [<-|[_ ?]]; [done|congruence].
Qed.

End CompleteRun.

(** * The theorems on sample inputs *)

(** C3, as the specification words it, fails: the chart drawn from a table
    with a row of 4096 bytes holds the label "IO Size=4KB", and the label
    with one decimal place would be "IO Size=4.0KB". *)
Lemma stride_label_not_one_decimal :
  match run (plot_stride yerr_nonnegative log_axes_render [mkRow 4096 512 10 1]
                         "read" "HDD" "benchmark_plots") plots_state with
  | (Ok _, st') =>
      match fs st' !! ["benchmark_plots"; "stride_HDD_read.png"] with
      | Some (File (PngImage fig)) =>
          map label (series fig) = ["IO Size=4KB"]
          ∧ map label (series fig) ≠ [one_decimal_label 4096]
      | _ => False
      end
  | _ => False
  end
  ∧ one_decimal_label 4096 = "IO Size=4.0KB".
Proof. vm_compute. split; [split; [reflexivity|discriminate]|reflexivity]. Qed.


(** C10, as the specification words it, fails: the only mean of the table
    below is missing, [errorbar] takes the series, and the output directory
    exists, but the figure has no positive value to show on its
    logarithmic axis; the renderer raises [ValueError] and no PNG file is
    written. *)
Lemma undrawn_chart_not_written :
  forallb yerr_nonnegative (series_for nan_table io_sizes) = true
  ∧ writable (fs plots_state)
             (resolve (stride_png "benchmark_plots" "HDD" "read")) = true
  ∧ match run (plot_stride yerr_nonnegative log_axes_render nan_table
                           "read" "HDD" "benchmark_plots") plots_state with
    | (Raise ValueError, st') =>
        fs st' !! ["benchmark_plots"; "stride_HDD_read.png"] = None
        ∧ fs st' = fs plots_state
    | _ => False
    end.
Proof. vm_compute. repeat split; reflexivity. Qed.

(** The sample table has rows of 4096 bytes: its chart holds their series,
    labelled "IO Size=4KB". *)
Lemma plot_stride_label_whole_kb_witness :
  ∃ st' fig,
    run (plot_stride yerr_nonnegative log_axes_render sample_table "read" "HDD" "benchmark_plots")
        plots_state = (Ok tt, st') ∧
    fs st' !! ["benchmark_plots"; "stride_HDD_read.png"]
      = Some (File (PngImage fig)) ∧
    stride_series_of sample_table 4096 ∈ series fig ∧
    label (stride_series_of sample_table 4096) = "IO Size=4KB".
Proof.
  apply (plot_stride_label_whole_kb yerr_nonnegative log_axes_render sample_table
           "read" "HDD" "benchmark_plots" plots_state 4096
           (mkRow 4096 512 10 1)).
  - vm_compute. reflexivity.
  - vm_compute. reflexivity.
  - vm_compute. reflexivity.
  - left.
  - left.
  - reflexivity.
Defined.


(** A table with rows of 8192 bytes only: a chart without series. *)
Lemma plot_stride_writes_chart_witness :
  ∃ st' fig,
    run (plot_stride yerr_nonnegative log_axes_render [mkRow 8192 512 10 1]
                     "read" "HDD" "benchmark_plots") plots_state = (Ok tt, st') ∧
    fs st' !! ["benchmark_plots"; "stride_HDD_read.png"]
      = Some (File (PngImage fig)) ∧
    series fig = [].
Proof.
  destruct (plot_stride_writes_chart yerr_nonnegative log_axes_render [mkRow 8192 512 10 1]
              "read" "HDD" "benchmark_plots" plots_state) as (_ & Hnone & _).
  - vm_compute. reflexivity.
  - destruct Hnone as (st' & fig & Hrun & Hfile & Hseries & _).
    + intros r Hr. apply list_elem_of_singleton in Hr as ->.
      unfold io_sizes. simpl. intros Hin.
      repeat (apply elem_of_cons in Hin as [Hin|Hin]; [discriminate|]).
      by apply elem_of_nil in Hin.
    + vm_compute. reflexivity.
    + exists st', fig. split; [exact Hrun|]. split; [exact Hfile|exact Hseries].
Defined.

(** A complete run on the sample tree. *)
Lemma main_writes_eight_charts_witness :
  ∃ st',
    run (main yerr_nonnegative log_axes_render) sample_state = (Ok tt, st') ∧
    saved (log st') = all_charts.
Proof.
  destruct (main_writes_eight_charts yerr_nonnegative log_axes_render sample_tables
              sample_tables sample_state) as (_ & st' & Hrun & Hsaved & _).
  - repeat split; vm_compute; reflexivity.
  - repeat split; vm_compute; reflexivity.
  - vm_compute. reflexivity.
  - vm_compute. reflexivity.
  - vm_compute. reflexivity.
  - vm_compute. reflexivity.
  - vm_compute. reflexivity.
  - vm_compute. reflexivity.
  - exists st'. split; [exact Hrun|]. rewrite Hsaved. reflexivity.
Defined.

(** The HDD device without its [stride_read.csv]. *)
Lemma process_device_missing_input_witness :
  ∃ e st',
    run (process_device yerr_nonnegative log_axes_render "hdd_benchmark_results" "HDD"
                        "benchmark_plots") incomplete_state = (Raise e, st') ∧
    figs st' = [] ∧ saved (log st') = [].
Proof.
  destruct (process_device_missing_input yerr_nonnegative log_axes_render
              "hdd_benchmark_results" "HDD" "benchmark_plots" incomplete_state
              "hdd_benchmark_results/stride_read.csv")
    as (e & st' & evs & Hrun & _ & _ & _ & Hfigs & Hsaved & _).
  - unfold input_paths, input_files. simpl. do 4 right. left.
  - vm_compute. reflexivity.
  - exists e, st'. split; [exact Hrun|]. split; [exact Hfigs|exact Hsaved].
Defined.

(** [makedirs] on an output directory that is there already, and on a
    tree that holds neither the directory nor its parent: both are
    created. *)
Lemma process_device_ensures_output_dir_witness :
  run (os_makedirs "benchmark_plots") plots_state
  = (Ok tt, mkState (fs plots_state) [] [EvMakedirs "benchmark_plots"])
  ∧ ∃ tree,
      fs empty_state !! ["plots"] = None
      ∧ fs empty_state !! ["plots"; "run1"] = None
      ∧ run (os_makedirs "plots/run1") empty_state
        = (Ok tt, mkState tree [] [EvMakedirs "plots/run1"])
      ∧ tree !! ["plots"] = Some Dir
      ∧ tree !! ["plots"; "run1"] = Some Dir.
Proof.
  split.
  - apply (proj1 (process_device_ensures_output_dir yerr_nonnegative log_axes_render
                    "hdd_benchmark_results" "HDD" "benchmark_plots" plots_state)).
    + discriminate.
    + vm_compute. reflexivity.
  - destruct (process_device_ensures_output_dir yerr_nonnegative log_axes_render
                "hdd_benchmark_results" "HDD" "plots/run1" empty_state)
      as (_ & Hmake & _).
    destruct Hmake as (tree & Hrun & _ & Hdirs & _).
    + discriminate.
    + vm_compute. reflexivity.
    + exists tree. split; [reflexivity|]. split; [reflexivity|].
      split; [exact Hrun|].
      split; [apply (Hdirs 1%nat)|apply (Hdirs 2%nat)]; vm_compute; lia.
Defined.

(** A run in which the HDD device fails: [main] ends with its exception. *)
Lemma main_hdd_before_ssd_witness :
  ∃ st', run (main yerr_nonnegative log_axes_render) incomplete_state
         = (Raise FileNotFoundError, st').
Proof.
  pose proof (main_hdd_before_ssd yerr_nonnegative log_axes_render incomplete_state
    (run (os_makedirs "benchmark_plots") incomplete_state).2
    (Raise FileNotFoundError)
    (run (process_device yerr_nonnegative log_axes_render "hdd_benchmark_results" "HDD"
                         "benchmark_plots")
         (run (os_makedirs "benchmark_plots") incomplete_state).2).2) as H.
  destruct H as [Hrun _].
  - vm_compute. reflexivity.
  - vm_compute. reflexivity.
  - eexists. exact Hrun.
Defined.

(** * Further properties of the aggregation *)

Lemma elem_of_group_keys_select key (df : DataFrame) k :
  k ∈ group_keys key df ↔ select key k df ≠ [].
Proof.
  rewrite select_nil_iff, elem_of_group_keys. split.
  - intros (r & Hr & <-) Hn. apply Hn, list_elem_of_fmap. eauto.
  - intros Hn. destruct (decide (k ∈ map key df)) as [Hin|Hin]; [|done].
    apply list_elem_of_fmap in Hin as (r & -> & Hr). eauto.
Qed.

Lemma group_keys_ext key (df1 df2 : DataFrame) :
  (∀ k, select key k df1 = select key k df2) →
  group_keys key df1 = group_keys key df2.
Proof.
  intros Hsel. eapply (StronglySorted_unique Z.lt); eauto using group_keys_sorted.
  apply NoDup_Permutation; eauto using StronglySorted_lt_NoDup, group_keys_sorted.
  intros k. by rewrite !elem_of_group_keys_select, Hsel.
Qed.

(** X1: The aggregate depends on the rows of each key in their order and on
    nothing else: two tables that hold, for every key, the same rows in the
    same order give the same Series, however the rows of different keys are
    interleaved. *)
Theorem groupby_last_depends_on_groups key col (df1 df2 : DataFrame) :
  (∀ k, select key k df1 = select key k df2) →
  groupby_last key col df1 = groupby_last key col df2.
Proof.
  intros Hsel. unfold groupby_last. rewrite (group_keys_ext key df1 df2 Hsel).
  apply map_ext. intros k. by rewrite Hsel.
Qed.

(** Rows of keys 4096 and 8192 interleaved in two ways. *)
Lemma groupby_last_depends_on_groups_witness :
  groupby_last io_size mean
    [mkRow 4096 0 10 1; mkRow 8192 0 30 3; mkRow 4096 0 20 2]
  = groupby_last io_size mean
    [mkRow 8192 0 30 3; mkRow 4096 0 10 1; mkRow 4096 0 20 2].
Proof.
  apply (groupby_last_depends_on_groups io_size mean).
  intros k. unfold select. cbn.
  repeat case_decide; try reflexivity; lia.
Defined.

(** X2: The three arrays of an [errorbar] call have one length: the two
    [groupby] calls of a renderer give the same index, with one entry for
    each distinct key of the table. *)
Theorem errorbar_arrays_aligned (df : DataFrame) (lbl : string) (size : Z) :
  index (groupby_last io_size mean df) = index (groupby_last io_size ci95 df)
  ∧ length (xs (io_series df lbl)) = length (ys (io_series df lbl))
  ∧ length (ys (io_series df lbl)) = length (yerr (io_series df lbl))
  ∧ length (xs (io_series df lbl)) = length (first_appearance io_size df)
  ∧ length (xs (stride_series_of df size)) = length (ys (stride_series_of df size))
  ∧ length (ys (stride_series_of df size)) = length (yerr (stride_series_of df size))
  ∧ length (xs (stride_series_of df size))
    = length (first_appearance stride_size (select io_size size df)).
Proof.
  assert (Hlen : ∀ key col (t : DataFrame),
            length (values (groupby_last key col t)) = length (group_keys key t)).
  { intros key col t. unfold values, groupby_last. by rewrite !length_map. }
  assert (Hkeys : ∀ key (t : DataFrame),
            length (group_keys key t) = length (first_appearance key t)).
  { intros key t. apply Permutation_length, group_keys_first_appearance. }
  unfold io_series, stride_series_of. cbn [xs ys yerr].
  rewrite !index_groupby_last, !Hlen, !Hkeys. done.
Qed.

Lemma last_valid_all_nan vs :
  Forall (λ v, is_nan v = true) vs → last_valid vs = nan.
Proof.
  intros Hall. unfold last_valid. rewrite filter_none; [done|].
  eapply Forall_impl; [exact Hall|]. intros v Hv. unfold notna. by rewrite Hv.
Qed.

(** X3: A key all of whose rows hold NaN in a column is kept: it is in the
    index, and its aggregated value is NaN. *)
Theorem groupby_last_all_nan key col (df : DataFrame) r :
  r ∈ df →
  (∀ r', r' ∈ df → key r' = key r → is_nan (col r') = true) →
  key r ∈ index (groupby_last key col df)
  ∧ series_get (key r) (groupby_last key col df) = Some nan.
Proof.
  intros Hr Hnan.
  assert (Hk : key r ∈ group_keys key df) by (apply elem_of_group_keys; eauto).
  split; [by rewrite index_groupby_last|].
  rewrite series_get_groupby_last, decide_True by done.
  rewrite last_valid_all_nan; [done|].
  apply Forall_fmap, Forall_forall. intros r' Hr'.
  apply list_elem_of_filter in Hr' as [? ?]. simpl. auto.
Qed.

(** Key 4096 with NaN in both of its rows, beside a key with a value. *)
Lemma groupby_last_all_nan_witness :
  groupby_last io_size mean
    [mkRow 4096 0 nan 1; mkRow 8192 0 30 3; mkRow 4096 0 nan 2]
  = [(4096, nan); (8192, 30%float)]
  ∧ series_get 4096
      (groupby_last io_size mean
         [mkRow 4096 0 nan 1; mkRow 8192 0 30 3; mkRow 4096 0 nan 2])
    = Some nan.
Proof.
  split; [reflexivity|].
  apply (groupby_last_all_nan io_size mean _ (mkRow 4096 0 nan 1)).
  - left.
  - intros r' Hr' Hkey.
    repeat (apply elem_of_cons in Hr' as [->|Hr']); try reflexivity.
    + discriminate.
    + by apply elem_of_nil in Hr'.
Defined.

(** * Further properties of the renderers *)

Section RendererEdges.

Variable errorbar_accepts : Series → bool.
Variable savefig_renders : Figure → bool.

(** X4: [plot_io_size], when [errorbar] takes its two series, [savefig] can
    draw the figure and the file can be written, writes one chart: a
    figure with the series "Sequential" and "Random", in that order, on
    logarithmic axes.  It changes the tree at the path of the chart only
    and leaves the stack of open figures as it found it. *)
Theorem plot_io_size_writes_two_series (seq_data random_data : DataFrame)
    operation device output_dir st :
  errorbar_accepts (io_series seq_data "Sequential") = true →
  errorbar_accepts (io_series random_data "Random") = true →
  savefig_renders (io_figure seq_data random_data operation device) = true →
  writable (fs st) (resolve (io_size_png output_dir device operation)) = true →
  ∃ st' fig,
    run (plot_io_size errorbar_accepts savefig_renders seq_data random_data operation device
                      output_dir) st = (Ok tt, st') ∧
    fs st' !! resolve (io_size_png output_dir device operation)
      = Some (File (PngImage fig)) ∧
    map label (series fig) = ["Sequential"; "Random"] ∧
    map xs (series fig)
      = [group_keys io_size seq_data; group_keys io_size random_data] ∧
    xscale fig = "log" ∧ yscale fig = "log" ∧
    title fig = "I/O Size vs Throughput - " +:+ device +:+ " " +:+ operation ∧
    figs st' = figs st ∧
    saved (log st') = saved (log st) ++ [io_size_png output_dir device operation] ∧
    (∀ q, q ≠ resolve (io_size_png output_dir device operation) →
          fs st' !! q = fs st !! q).
Proof.
  intros Hseq Hrnd Hdraw Hw. eexists _, _.
  split; [by apply run_plot_io_size|]. cbn [fs figs log].
  split; [by rewrite lookup_insert_eq|].
  cbn [io_figure series map label xs io_series xscale yscale title].
  rewrite !index_groupby_last. repeat split; try done.
  - by rewrite saved_app.
  - intros q Hq. by rewrite lookup_insert_ne.
Qed.

(** X5: When the chart cannot be written (the output directory is missing, or
    the path is a directory) [plot_io_size] raises in [savefig]: the tree
    is unchanged, and [plt.close] is not reached, so the figure it drew
    stays open on top of the stack. *)
Theorem plot_io_size_blocked_keeps_figure (seq_data random_data : DataFrame)
    operation device output_dir st :
  errorbar_accepts (io_series seq_data "Sequential") = true →
  errorbar_accepts (io_series random_data "Random") = true →
  writable (fs st) (resolve (io_size_png output_dir device operation)) = false →
  ∃ e,
    run (plot_io_size errorbar_accepts savefig_renders seq_data random_data operation device
                      output_dir) st
    = (Raise e,
       mkState (fs st)
               (io_figure seq_data random_data operation device :: figs st)
               (log st ++ [EvFigure; EvErrorbar "Sequential"; EvErrorbar "Random";
                           EvSavefig (io_size_png output_dir device operation)])).
Proof.
  destruct st as [t fg l]. cbn [fs figs log]. intros Hseq Hrnd Hw.
  destruct (run_savefig_raise savefig_renders
              (io_size_png output_dir device operation)
              (mkState t (io_figure seq_data random_data operation device :: fg)
                 (((l ++ [EvFigure]) ++ [EvErrorbar "Sequential"])
                  ++ [EvErrorbar "Random"])) Hw) as [e He].
  exists e. unfold plot_io_size.
  eapply run_seq; [apply run_figure|].
  eapply run_seq; [by apply run_errorbar|].
  eapply run_seq; [by apply run_errorbar|].
  do 7 (eapply run_seq; [apply run_update_current|]).
  eapply run_seq_raise. etrans; [exact He|].
  cbn [fs figs log]. by rewrite <- !app_assoc.
Qed.

(** X6: When the chart cannot be written [plot_stride] raises in [savefig],
    after drawing its series: the tree is unchanged, [savefig] was called
    once, and the figure stays open on top of the stack. *)
Theorem plot_stride_blocked_keeps_figure (stride_data : DataFrame)
    operation device output_dir st :
  forallb errorbar_accepts (series_for stride_data io_sizes) = true →
  writable (fs st) (resolve (stride_png output_dir device operation)) = false →
  ∃ e st',
    run (plot_stride errorbar_accepts savefig_renders stride_data operation device output_dir) st
      = (Raise e, st') ∧
    fs st' = fs st ∧
    figs st' = stride_figure stride_data operation device :: figs st ∧
    saved (log st') = saved (log st) ++ [stride_png output_dir device operation].
Proof.
  destruct st as [t fg l]. cbn [fs figs log].
  intros Hacc%forallb_Forall Hw.
  destruct (run_savefig_raise savefig_renders
              (stride_png output_dir device operation)
              (mkState t (stride_figure stride_data operation device :: fg)
                 ((l ++ [EvFigure])
                  ++ map (λ s, EvErrorbar (label s))
                         (series_for stride_data io_sizes))) Hw) as [e He].
  exists e. eexists.
  split.
  { unfold plot_stride.
    eapply run_seq; [apply run_figure|].
    eapply run_seq; [by apply run_stride_loop|]. rewrite add_all_eq.
    do 7 (eapply run_seq; [apply run_update_current|]).
    eapply run_seq_raise. exact He. }
  cbn [fs figs log]. split; [done|]. split; [done|].
  rewrite !saved_app, saved_errorbars. simpl. by rewrite !app_nil_r.
Qed.

(** X7: When [errorbar] refuses one of the two series, [plot_io_size] raises
    [ValueError] before [savefig]: no file is written, and the figure stays
    open. *)
Theorem plot_io_size_rejected_series (seq_data random_data : DataFrame)
    operation device output_dir st :
  errorbar_accepts (io_series seq_data "Sequential")
    && errorbar_accepts (io_series random_data "Random") = false →
  ∃ st',
    run (plot_io_size errorbar_accepts savefig_renders seq_data random_data operation device
                      output_dir) st = (Raise ValueError, st') ∧
    fs st' = fs st ∧
    saved (log st') = saved (log st) ∧
    length (figs st') = S (length (figs st)).
Proof.
  destruct st as [t fg l]. cbn [fs figs log]. intros Hrej.
  unfold plot_io_size.
  destruct (errorbar_accepts (io_series seq_data "Sequential")) eqn:Hseq.
  - eexists. split.
    { eapply run_seq; [apply run_figure|].
      eapply run_seq; [by apply run_errorbar|].
      eapply run_seq_raise. apply run_errorbar_raise. exact Hrej. }
    cbn [fs figs log length]. repeat split; try done.
    by rewrite !saved_snoc_other.
  - eexists. split.
    { eapply run_seq; [apply run_figure|].
      eapply run_seq_raise. by apply run_errorbar_raise. }
    cbn [fs figs log length]. repeat split; try done.
    by rewrite !saved_snoc_other.
Qed.

(** X8: When [errorbar] refuses the series of one of the sizes, [plot_stride]
    raises [ValueError] in its loop: [savefig] is not called, no file is
    written, and the figure stays open. *)
Theorem plot_stride_rejected_series (stride_data : DataFrame)
    operation device output_dir st :
  forallb errorbar_accepts (series_for stride_data io_sizes) = false →
  ∃ st',
    run (plot_stride errorbar_accepts savefig_renders stride_data operation device output_dir) st
      = (Raise ValueError, st') ∧
    fs st' = fs st ∧
    saved (log st') = saved (log st) ∧
    length (figs st') = S (length (figs st)).
Proof.
  destruct st as [t fg l]. cbn [fs figs log]. intros Hrej.
  destruct (run_stride_loop_rejected errorbar_accepts stride_data io_sizes t
              (new_figure (Some (12, 6))) fg (l ++ [EvFigure]) Hrej)
    as (fig' & l' & Hrun & Hsaved).
  eexists. split.
  { unfold plot_stride. eapply run_seq; [apply run_figure|].
    eapply run_seq_raise. exact Hrun. }
  cbn [fs figs log length]. repeat split; try done.
  by rewrite Hsaved, saved_snoc_other.
Qed.

End RendererEdges.

(** The sample table on a tree with the output directory. *)
Lemma plot_io_size_writes_two_series_witness :
  ∃ st' fig,
    run (plot_io_size yerr_nonnegative log_axes_render sample_table sample_table
                      "read" "HDD" "benchmark_plots") plots_state = (Ok tt, st') ∧
    fs st' !! ["benchmark_plots"; "io_size_HDD_read.png"]
      = Some (File (PngImage fig)) ∧
    map xs (series fig) = [[4096; 65536]; [4096; 65536]].
Proof.
  destruct (plot_io_size_writes_two_series yerr_nonnegative log_axes_render
              sample_table sample_table "read" "HDD" "benchmark_plots" plots_state)
    as (st' & fig & Hrun & Hfile & _ & Hxs & _).
  - vm_compute. reflexivity.
  - vm_compute. reflexivity.
  - vm_compute. reflexivity.
  - vm_compute. reflexivity.
  - exists st', fig. split; [exact Hrun|]. split; [exact Hfile|].
    rewrite Hxs. reflexivity.
Defined.

(** Without the output directory the chart cannot be written. *)
Lemma plot_io_size_blocked_keeps_figure_witness :
  ∃ e st',
    run (plot_io_size yerr_nonnegative log_axes_render sample_table sample_table "read" "HDD"
                      "benchmark_plots") empty_state = (Raise e, st') ∧
    length (figs st') = 1%nat ∧ fs st' = ∅.
Proof.
  destruct (plot_io_size_blocked_keeps_figure yerr_nonnegative log_axes_render sample_table
              sample_table "read" "HDD" "benchmark_plots" empty_state)
    as [e Hrun].
  - vm_compute. reflexivity.
  - vm_compute. reflexivity.
  - vm_compute. reflexivity.
  - exists e. eexists. split; [exact Hrun|]. split; reflexivity.
Defined.

Lemma plot_stride_blocked_keeps_figure_witness :
  ∃ e st',
    run (plot_stride yerr_nonnegative log_axes_render sample_table "read" "HDD"
                     "benchmark_plots") empty_state = (Raise e, st') ∧
    length (figs st') = 1%nat ∧ fs st' = ∅.
Proof.
  destruct (plot_stride_blocked_keeps_figure yerr_nonnegative log_axes_render sample_table
              "read" "HDD" "benchmark_plots" empty_state)
    as (e & st' & Hrun & Hfs & Hfigs & _).
  - vm_compute. reflexivity.
  - vm_compute. reflexivity.
  - exists e, st'. split; [exact Hrun|]. split; [by rewrite Hfigs|exact Hfs].
Defined.

(** A negative [ci95] with the check of recent versions of the library. *)
Lemma plot_io_size_rejected_series_witness :
  ∃ st',
    run (plot_io_size yerr_nonnegative log_axes_render sample_table negative_table "read" "HDD"
                      "benchmark_plots") plots_state = (Raise ValueError, st') ∧
    fs st' = fs plots_state.
Proof.
  destruct (plot_io_size_rejected_series yerr_nonnegative log_axes_render sample_table
              negative_table "read" "HDD" "benchmark_plots" plots_state)
    as (st' & Hrun & Hfs & _).
  - vm_compute. reflexivity.
  - exists st'. split; [exact Hrun|exact Hfs].
Defined.

Lemma plot_stride_rejected_series_witness :
  ∃ st',
    run (plot_stride yerr_nonnegative log_axes_render negative_table "read" "HDD"
                     "benchmark_plots") plots_state = (Raise ValueError, st') ∧
    fs st' = fs plots_state.
Proof.
  destruct (plot_stride_rejected_series yerr_nonnegative log_axes_render negative_table
              "read" "HDD" "benchmark_plots" plots_state)
    as (st' & Hrun & Hfs & _).
  - vm_compute. reflexivity.
  - exists st'. split; [exact Hrun|exact Hfs].
Defined.

(** * Further properties of the orchestrator *)


Lemma respects_weaken {A} (m : M A) (E E' : Event → Prop) (Q Q' : path → Prop) :
  respects m E Q → (∀ e, E e → E' e) → (∀ p, Q p → Q' p) → respects m E' Q'.
Proof.
  intros Hm HE HQ st r st' Hrun.
  destruct (Hm _ _ _ Hrun) as ((evs & Hlog & Hevs) & Hfs & Hdirs).
  split; [|split; [|done]].
  - exists evs. split; [done|]. eapply Forall_impl; eauto.
  - intros p Hp. apply Hfs. auto.
Qed.

Section OrchestratorEdges.

Variable errorbar_accepts : Series → bool.
Variable savefig_renders : Figure → bool.

(** X9: Whatever a run of [process_device] does, and whether it returns or
    raises: it loads no file but the six inputs of its device directory,
    calls [savefig] with none but the four chart names of its device,
    changes the tree only at the output directory and its parents and at
    the four chart paths, and removes no directory. *)
Theorem process_device_footprint device_dir device_name output_dir st r st' :
  run (process_device errorbar_accepts savefig_renders device_dir device_name output_dir) st
    = (r, st') →
  (∃ evs, log st' = log st ++ evs
          ∧ Forall (device_event device_dir device_name output_dir) evs)
  ∧ (∀ p, ¬ p `prefix_of` resolve output_dir →
          p ∉ map resolve (chart_files output_dir device_name) →
          fs st' !! p = fs st !! p)
  ∧ (∀ p, is_dir (fs st) p = true → is_dir (fs st') p = true).
Proof.
  intros Hrun.
  destruct (respects_process_device errorbar_accepts savefig_renders _ _ _ _ _ _ Hrun)
    as (Hlog & Hfs & Hdirs).
  split; [done|]. split; [|done].
  intros p Hpre Hchart. apply Hfs. by intros [?|?].
Qed.


(** X11: There is no rollback: when the two I/O-size charts are drawn and
    written and [errorbar] then refuses a series of the stride table of
    the reads,
    [process_device] raises [ValueError] with the two I/O-size charts
    written, no stride chart written, and one figure left open. *)
Theorem process_device_keeps_charts_written_before_failure
    device_dir device_name output_dir (T : DeviceTables) st :
  output_dir ≠ "" →
  dir_exists (fs st) (resolve output_dir) = true →
  holds_inputs (fs st) device_dir T →
  errorbar_accepts (io_series (seq_read_of T) "Sequential") = true →
  errorbar_accepts (io_series (random_read_of T) "Random") = true →
  errorbar_accepts (io_series (seq_write_of T) "Sequential") = true →
  errorbar_accepts (io_series (random_write_of T) "Random") = true →
  savefig_renders (io_figure (seq_read_of T) (random_read_of T)
                             "read" device_name) = true →
  savefig_renders (io_figure (seq_write_of T) (random_write_of T)
                             "write" device_name) = true →
  charts_writable (fs st) device_name output_dir = true →
  forallb errorbar_accepts (series_for (stride_read_of T) io_sizes) = false →
  ∃ st',
    run (process_device errorbar_accepts savefig_renders device_dir device_name output_dir) st
      = (Raise ValueError, st') ∧
    fs st' =
      <[resolve (io_size_png output_dir device_name "write") :=
          File (PngImage (io_figure (seq_write_of T) (random_write_of T)
                                    "write" device_name))]>
      (<[resolve (io_size_png output_dir device_name "read") :=
          File (PngImage (io_figure (seq_read_of T) (random_read_of T)
                                    "read" device_name))]> (fs st)) ∧
    saved (log st') = saved (log st)
                      ++ [io_size_png output_dir device_name "read";
                          io_size_png output_dir device_name "write"] ∧
    length (figs st') = S (length (figs st)).
Proof.
  intros Hne Hdir (H1 & H2 & H3 & H4 & H5 & H6) Ha1 Ha2 Ha3 Ha4 Hr1 Hr2 Hw Hrej.
  unfold charts_writable, chart_files in Hw. simpl in Hw.
  repeat match goal with H : _ && _ = true |- _ =>
    apply andb_prop in H as [? ?] end.
  repeat match goal with H : bool_decide _ = true |- _ =>
    apply bool_decide_eq_true in H;
    repeat (apply not_elem_of_cons in H as [? H]) end.
  destruct st as [t fg l]. cbn [fs figs log] in *.
  match goal with |- ∃ st', run _ (mkState _ _ ?l0) = _ ∧ _ =>
    destruct (run_stride_loop_rejected errorbar_accepts (stride_read_of T)
      io_sizes
      (<[resolve (io_size_png output_dir device_name "write") :=
          File (PngImage (io_figure (seq_write_of T) (random_write_of T)
                                    "write" device_name))]>
       (<[resolve (io_size_png output_dir device_name "read") :=
          File (PngImage (io_figure (seq_read_of T) (random_read_of T)
                                    "read" device_name))]> t))
      (new_figure (Some (12, 6))) fg
      ((((((((((l0 ++ [EvMakedirs output_dir])
         ++ [EvReadCsv (device_dir +:+ "/sequential_size_read.csv")])
         ++ [EvReadCsv (device_dir +:+ "/sequential_size_write.csv")])
         ++ [EvReadCsv (device_dir +:+ "/random_read.csv")])
         ++ [EvReadCsv (device_dir +:+ "/random_write.csv")])
         ++ [EvReadCsv (device_dir +:+ "/stride_read.csv")])
         ++ [EvReadCsv (device_dir +:+ "/stride_write.csv")])
         ++ io_events (io_size_png output_dir device_name "read"))
         ++ io_events (io_size_png output_dir device_name "write"))
         ++ [EvFigure]) Hrej) as (fig' & l' & Hloop & Hsaved)
  end.
  eexists. split.
  { rewrite process_device_unfold. eapply run_seq.
    { rewrite run_makedirs. cbv zeta. rewrite decide_False by done.
      cbn [fs figs log].
      rewrite makedirs_go_existing; [done|]. by apply dir_exists_spec. }
    unfold device_body, load_data.
    do 6 (eapply run_seq;
          [rewrite run_read_csv; cbn [fs figs log];
           first [rewrite H1|rewrite H2|rewrite H3|rewrite H4|rewrite H5|rewrite H6];
           reflexivity|]).
    eapply run_seq; [by apply run_plot_io_size|]. cbn [fs figs log].
    eapply run_seq.
    { apply run_plot_io_size; try done. cbn [fs].
      by apply writable_insert_file. }
    cbn [fs figs log]. eapply run_seq_raise.
    unfold plot_stride. eapply run_seq; [apply run_figure|].
    eapply run_seq_raise. exact Hloop. }
  cbn [fs figs log length]. split; [done|]. split; [|done].
  rewrite Hsaved, !saved_app. simpl.
  by rewrite !app_nil_r, <- !app_assoc.
Qed.

End OrchestratorEdges.

(** A run of the HDD device on the sample tree leaves the SSD input alone. *)
Lemma process_device_footprint_witness :
  fs (run (process_device yerr_nonnegative log_axes_render "hdd_benchmark_results" "HDD"
                          "benchmark_plots") sample_state).2
    !! ["ssd_benchmark_results"; "stride_read.csv"]
  = sample_tree !! ["ssd_benchmark_results"; "stride_read.csv"].
Proof.
  destruct (process_device_footprint yerr_nonnegative log_axes_render "hdd_benchmark_results"
              "HDD" "benchmark_plots" sample_state
              (run (process_device yerr_nonnegative log_axes_render "hdd_benchmark_results"
                      "HDD" "benchmark_plots") sample_state).1
              (run (process_device yerr_nonnegative log_axes_render "hdd_benchmark_results"
                      "HDD" "benchmark_plots") sample_state).2)
    as (_ & Hfs & _).
  - vm_compute. reflexivity.
  - apply Hfs.
    + intros [k Hk]. vm_compute in Hk. discriminate.
    + unfold chart_files. cbn [map]. intros Hin.
      repeat (apply elem_of_cons in Hin as [Hin|Hin];
              [vm_compute in Hin; discriminate|]).
      by apply elem_of_nil in Hin.
Defined.


(** The HDD device with a negative [ci95] in its stride table of the reads. *)
Lemma process_device_keeps_charts_written_before_failure_witness :
  ∃ st',
    run (process_device yerr_nonnegative log_axes_render "hdd_benchmark_results" "HDD"
                        "benchmark_plots") partial_state
      = (Raise ValueError, st') ∧
    saved (log st') = ["benchmark_plots/io_size_HDD_read.png";
                       "benchmark_plots/io_size_HDD_write.png"].
Proof.
  destruct (process_device_keeps_charts_written_before_failure
              yerr_nonnegative log_axes_render "hdd_benchmark_results" "HDD" "benchmark_plots"
              partial_tables partial_state)
    as (st' & Hrun & _ & Hsaved & _).
  - discriminate.
  - vm_compute. reflexivity.
  - repeat split; vm_compute; reflexivity.
  - vm_compute. reflexivity.
  - vm_compute. reflexivity.
  - vm_compute. reflexivity.
  - vm_compute. reflexivity.
  - vm_compute. reflexivity.
  - vm_compute. reflexivity.
  - vm_compute. reflexivity.
  - vm_compute. reflexivity.
  - exists st'. split; [exact Hrun|]. rewrite Hsaved. reflexivity.
Defined.

(** * Further properties of the entry point *)

Lemma makedirs_plots (tree : gmap path node) :
  is_file tree ["benchmark_plots"] = false →
  ∃ tree0,
    makedirs_go tree [] (resolve "benchmark_plots") = Ok tree0
    ∧ tree0 !! ["benchmark_plots"] = Some Dir
    ∧ (∀ p, p ≠ ["benchmark_plots"] → tree0 !! p = tree !! p)
    ∧ (∀ p, tree0 !! p = tree !! p ∨ (tree !! p = None ∧ tree0 !! p = Some Dir)).
Proof.
  intros Hplots.
  assert (∃ tree0, makedirs_go tree [] (resolve "benchmark_plots") = Ok tree0)
    as [tree0 Hgo].
  { change (resolve "benchmark_plots") with ["benchmark_plots"].
    cbn [makedirs_go app]. unfold is_file, lookup_node in Hplots.
    destruct (tree !! ["benchmark_plots"]) as [[|?]|]; by eauto. }
  exists tree0. split; [done|].
  pose proof (makedirs_go_adds_dirs _ _ _ _ Hgo) as Hadd.
  pose proof (makedirs_go_dir_exists _ _ _ Hgo) as Hdir.
  apply makedirs_go_spec in Hgo as (Hout & _ & _).
  split; [|split; [|done]].
  - apply (proj1 (dir_exists_spec _ _) Hdir 1%nat). by vm_compute.
  - intros p Hp. apply Hout. intros n Hn Heq. apply Hp. rewrite Heq.
    assert (n = 1%nat) as -> by (vm_compute in Hn; lia). reflexivity.
Qed.

Lemma write_charts_holds (T : DeviceTables) (device_name : string)
    (tree : gmap path node) :
  device_name = "HDD" ∨ device_name = "SSD" →
  holds_charts (write_charts T device_name "benchmark_plots" tree) T
               device_name "benchmark_plots".
Proof.
  intros [-> | ->]; unfold holds_charts, write_charts; repeat split;
    repeat first [ rewrite lookup_insert_eq; reflexivity
                 | rewrite lookup_insert_ne by (vm_compute; discriminate) ].
Qed.

Lemma write_charts_fixed (T : DeviceTables) (device_name output_dir : string)
    (tree : gmap path node) :
  holds_charts tree T device_name output_dir →
  write_charts T device_name output_dir tree = tree.
Proof.
  intros (H1 & H2 & H3 & H4). unfold write_charts.
  rewrite (insert_id tree _ _ H1), (insert_id tree _ _ H2).
  by rewrite (insert_id tree _ _ H3), (insert_id tree _ _ H4).
Qed.

Lemma holds_charts_ext (tree tree' : gmap path node) (T : DeviceTables)
    (device_name output_dir : string) :
  (∀ f, f ∈ chart_files output_dir device_name →
        tree' !! resolve f = tree !! resolve f) →
  holds_charts tree T device_name output_dir →
  holds_charts tree' T device_name output_dir.
Proof.
  intros Hsame (H1 & H2 & H3 & H4). unfold holds_charts.
  rewrite !Hsame; [done|unfold chart_files; repeat first [by left | right] ..].
Qed.

Lemma holds_charts_files (tree : gmap path node) (T : DeviceTables)
    (device_name output_dir f : string) :
  holds_charts tree T device_name output_dir →
  f ∈ chart_files output_dir device_name →
  ∃ fig, tree !! resolve f = Some (File (PngImage fig)).
Proof.
  intros (H1 & H2 & H3 & H4) Hf. unfold chart_files in Hf.
  repeat (apply elem_of_cons in Hf as [->|Hf]); eauto.
  by apply elem_of_nil in Hf.
Qed.

(** Nor is any directory on the way to an input. *)
Lemma input_ancestors_not_outputs :
  Forall (λ f, Forall (λ n, take n (resolve f) ≠ ["benchmark_plots"]
                            ∧ take n (resolve f) ∉ map resolve all_charts)
                      (seq 1 (length (resolve f)))) main_inputs.
Proof. compute_done. Qed.

(** The inputs of the script are neither its output directory nor a chart. *)
Lemma inputs_not_outputs :
  Forall (λ f, resolve f ≠ [] ∧ resolve f ≠ ["benchmark_plots"]
               ∧ resolve f ∉ map resolve all_charts) main_inputs.
Proof. compute_done. Qed.

Lemma charts_not_root : Forall (λ f, resolve f ≠ []) all_charts.
Proof. compute_done. Qed.

Lemma saved_only_loads evs : forallb is_load evs = true → saved evs = [].
Proof. induction evs as [|[] evs IH]; simpl; try done. Qed.

Section EntryPoint.

Variable errorbar_accepts : Series → bool.
Variable savefig_renders : Figure → bool.

Lemma device_body_fails_loading device_dir device_name output_dir st f :
  f ∈ input_paths device_dir →
  (∀ df, load_result (fs st) f ≠ Ok df) →
  fails_loading
    (run (device_body errorbar_accepts savefig_renders device_dir device_name output_dir) st) st.
Proof.
  intros Hf Hfail. destruct st as [t fg l]. cbn [fs] in Hfail.
  unfold input_paths, input_files in Hf. simpl in Hf.
  unfold device_body, load_data.
  repeat (apply elem_of_cons in Hf as [->|Hf]);
    [simpl in Hfail;
     repeat (apply fails_loading_step; cbn [fs figs log]; intros ? ?;
             try (exfalso; eapply Hfail; eassumption)) ..
    | by apply elem_of_nil in Hf].
Qed.

Lemma run_device_in_plots (device_dir device_name : string) (T : DeviceTables)
    (tree : gmap path node) (fg : list Figure) (l : list Event) :
  device_name = "HDD" ∨ device_name = "SSD" →
  tree !! ["benchmark_plots"] = Some Dir →
  holds_inputs tree device_dir T →
  plottable errorbar_accepts T = true →
  renderable savefig_renders T device_name = true →
  (∀ f, f ∈ chart_files "benchmark_plots" device_name →
        is_dir tree (resolve f) = false) →
  run (process_device errorbar_accepts savefig_renders device_dir device_name "benchmark_plots")
      (mkState tree fg l)
  = (Ok tt, mkState (write_charts T device_name "benchmark_plots" tree) fg
              (l ++ EvMakedirs "benchmark_plots"
                 :: body_events T device_dir device_name "benchmark_plots")).
Proof.
  intros Hname Hdir Hin Hplot Hdraw Hfree.
  apply (run_process_device errorbar_accepts savefig_renders _ _ _ T
           (mkState tree fg l));
    cbn [fs]; try done.
  - apply dir_exists_spec. intros n Hn.
    assert (n = 1%nat) as -> by (vm_compute in Hn; lia). exact Hdir.
  - apply charts_writable_plots; [done| |done]. by apply is_dir_lookup.
Qed.

Lemma run_main_complete (hdd ssd : DeviceTables) st :
  holds_inputs (fs st) "hdd_benchmark_results" hdd →
  holds_inputs (fs st) "ssd_benchmark_results" ssd →
  plottable errorbar_accepts hdd = true →
  plottable errorbar_accepts ssd = true →
  renderable savefig_renders hdd "HDD" = true →
  renderable savefig_renders ssd "SSD" = true →
  is_file (fs st) ["benchmark_plots"] = false →
  forallb (λ f, negb (is_dir (fs st) (resolve f))) all_charts = true →
  ∃ tree0,
    makedirs_go (fs st) [] (resolve "benchmark_plots") = Ok tree0
    ∧ tree0 !! ["benchmark_plots"] = Some Dir
    ∧ (∀ p, p ≠ ["benchmark_plots"] → tree0 !! p = fs st !! p)
    ∧ run (main errorbar_accepts savefig_renders) st
      = (Ok tt,
         mkState (write_charts ssd "SSD" "benchmark_plots"
                    (write_charts hdd "HDD" "benchmark_plots" tree0))
                 (figs st) (log st ++ main_events hdd ssd)).
Proof.
  intros Hhdd Hssd Hphdd Hpssd Hrhdd Hrssd Hplots Hfree.
  destruct (makedirs_plots _ Hplots) as (tree0 & Hgo & Hd0 & Hsame0 & _).
  exists tree0. do 3 (split; [done|]).
  assert (Hin : ∀ f, f ∈ main_inputs →
            resolve f ≠ ["benchmark_plots"]
            ∧ resolve f ∉ map resolve (chart_files "benchmark_plots" "HDD")).
  { intros f Hf.
    destruct (proj1 (Forall_forall _ _) inputs_not_outputs f Hf) as (_ & ? & Hn).
    split; [done|]. intros Hc. apply Hn. unfold all_charts.
    rewrite map_app. apply elem_of_app. by left. }
  assert (Hnd : ∀ f, f ∈ all_charts → is_dir tree0 (resolve f) = false).
  { intros f Hf. rewrite (is_dir_ext (fs st)).
    - rewrite forallb_forall in Hfree. apply negb_true_iff, Hfree.
      by apply list_elem_of_In.
    - apply Hsame0. by apply (proj1 (Forall_forall _ _) charts_not_plots). }
  unfold main. eapply run_seq.
  { rewrite run_makedirs. cbv zeta. rewrite decide_False by done.
    by rewrite Hgo. }
  eapply run_seq.
  { apply (run_device_in_plots _ _ hdd); [by left|done| |done|done|].
    - eapply holds_inputs_ext; [|exact Hhdd]. intros f Hf. apply Hsame0.
      apply Hin. apply elem_of_app. by left.
    - intros f Hf. apply Hnd. apply elem_of_app. by left. }
  rewrite (run_device_in_plots _ _ ssd).
  - unfold main_events. cbn [app]. by rewrite <- !app_assoc.
  - by right.
  - rewrite write_charts_other; [done|]. apply plots_not_chart. by left.
  - eapply holds_inputs_ext; [|exact Hssd]. intros f Hf.
    assert (f ∈ main_inputs) as [? ?]%Hin by (apply elem_of_app; by right).
    rewrite write_charts_other by done. by apply Hsame0.
  - done.
  - done.
  - intros f Hf. rewrite (is_dir_ext tree0).
    + apply Hnd. apply elem_of_app. by right.
    + apply write_charts_other.
      by apply (proj1 (Forall_forall _ _) ssd_charts_not_hdd).
Qed.

(** X12: After a complete run (the inputs load, the plotting library takes
    their series and draws the eight figures) every chart holds the figure drawn from the tables
    of its own device and operation: [io_size_D_op.png] shows the
    sequential and the random table of [op] of device [D], and
    [stride_D_op.png] the stride table of [op]; the charts of HDD are not
    overwritten by those of SSD, and no figure stays open. *)
Theorem main_charts_drawn_from_their_tables (hdd ssd : DeviceTables) st :
  holds_inputs (fs st) "hdd_benchmark_results" hdd →
  holds_inputs (fs st) "ssd_benchmark_results" ssd →
  plottable errorbar_accepts hdd = true →
  plottable errorbar_accepts ssd = true →
  renderable savefig_renders hdd "HDD" = true →
  renderable savefig_renders ssd "SSD" = true →
  is_file (fs st) ["benchmark_plots"] = false →
  forallb (λ f, negb (is_dir (fs st) (resolve f))) all_charts = true →
  ∃ st',
    run (main errorbar_accepts savefig_renders) st = (Ok tt, st') ∧
    holds_charts (fs st') hdd "HDD" "benchmark_plots" ∧
    holds_charts (fs st') ssd "SSD" "benchmark_plots" ∧
    figs st' = figs st.
Proof.
  intros Hhdd Hssd Hphdd Hpssd Hrhdd Hrssd Hplots Hfree.
  destruct (run_main_complete hdd ssd st) as (tree0 & _ & _ & _ & Hrun);
    try done.
  eexists. split; [exact Hrun|]. cbn [fs figs]. split; [|split; [|done]].
  - eapply holds_charts_ext; [|apply write_charts_holds; by left].
    intros f Hf. apply write_charts_other.
    by apply (proj1 (Forall_forall _ _) hdd_charts_not_ssd).
  - apply write_charts_holds. by right.
Qed.

(** X13: Running the script again on unchanged inputs after a complete run
    (the inputs load, the plotting library takes their series and draws
    the eight figures): the second run returns as well, writes the same eight charts over the first ones, and leaves
    the tree exactly as the first run left it. *)
Theorem main_rerun_same_tree (hdd ssd : DeviceTables) st :
  holds_inputs (fs st) "hdd_benchmark_results" hdd →
  holds_inputs (fs st) "ssd_benchmark_results" ssd →
  plottable errorbar_accepts hdd = true →
  plottable errorbar_accepts ssd = true →
  renderable savefig_renders hdd "HDD" = true →
  renderable savefig_renders ssd "SSD" = true →
  is_file (fs st) ["benchmark_plots"] = false →
  forallb (λ f, negb (is_dir (fs st) (resolve f))) all_charts = true →
  ∃ st1 st2,
    run (main errorbar_accepts savefig_renders) st = (Ok tt, st1) ∧
    run (main errorbar_accepts savefig_renders) st1 = (Ok tt, st2) ∧
    fs st2 = fs st1 ∧
    figs st2 = figs st1 ∧
    saved (log st2) = saved (log st1) ++ all_charts.
Proof.
  intros Hhdd Hssd Hphdd Hpssd Hrhdd Hrssd Hplots Hfree.
  destruct (run_main_complete hdd ssd st)
    as (tree0 & _ & Hd0 & Hsame0 & Hrun1); try done.
  set (tree1 := write_charts hdd "HDD" "benchmark_plots" tree0) in *.
  set (tree2 := write_charts ssd "SSD" "benchmark_plots" tree1) in *.
  assert (Hc_ssd : holds_charts tree2 ssd "SSD" "benchmark_plots")
    by (apply write_charts_holds; by right).
  assert (Hc_hdd : holds_charts tree2 hdd "HDD" "benchmark_plots").
  { eapply holds_charts_ext; [|apply write_charts_holds; by left].
    intros f Hf. apply write_charts_other.
    by apply (proj1 (Forall_forall _ _) hdd_charts_not_ssd). }
  assert (Hother : ∀ p, p ∉ map resolve all_charts → tree2 !! p = tree0 !! p).
  { intros p Hp. unfold all_charts in Hp. rewrite map_app in Hp.
    apply not_elem_of_app in Hp as [? ?].
    unfold tree2, tree1. by rewrite !write_charts_other. }
  assert (Hd2 : tree2 !! ["benchmark_plots"] = Some Dir).
  { rewrite Hother; [done|]. intros Hin. unfold all_charts in Hin.
    rewrite map_app in Hin. apply elem_of_app in Hin as [Hin|Hin];
      revert Hin; apply plots_not_chart; auto. }
  assert (Hin2 : ∀ d T, holds_inputs (fs st) d T →
            (∀ f, f ∈ input_paths d → f ∈ main_inputs) →
            holds_inputs tree2 d T).
  { intros d T Hd Hsub. eapply holds_inputs_ext; [|exact Hd]. intros f Hf.
    destruct (proj1 (Forall_forall _ _) inputs_not_outputs f (Hsub f Hf))
      as (_ & ? & ?).
    rewrite Hother by done. by apply Hsame0. }
  destruct (run_main_complete hdd ssd
              (mkState tree2 (figs st) (log st ++ main_events hdd ssd)))
    as (tree0' & Hgo' & _ & _ & Hrun2); cbn [fs figs log]; try done.
  { apply Hin2; [done|]. intros f Hf. apply elem_of_app. by left. }
  { apply Hin2; [done|]. intros f Hf. apply elem_of_app. by right. }
  { unfold is_file, lookup_node. by rewrite Hd2. }
  { apply forallb_forall. intros f Hf%list_elem_of_In. apply negb_true_iff.
    pose proof (proj1 (Forall_forall _ _) charts_not_root f Hf) as Hroot.
    unfold all_charts in Hf. unfold is_dir, lookup_node.
    destruct (resolve f) as [|a p] eqn:Hp; [done|]. rewrite <- Hp.
    apply elem_of_app in Hf as [Hf|Hf].
    - destruct (holds_charts_files _ _ _ _ f Hc_hdd Hf) as [fig ->]. done.
    - destruct (holds_charts_files _ _ _ _ f Hc_ssd Hf) as [fig ->]. done. }
  cbn [fs figs log] in Hgo', Hrun2.
  rewrite makedirs_go_existing in Hgo'.
  2:{ intros n Hn. assert (n = 1%nat) as -> by (vm_compute in Hn; lia).
      exact Hd2. }
  injection Hgo' as <-.
  rewrite (write_charts_fixed hdd "HDD" _ tree2 Hc_hdd) in Hrun2.
  rewrite (write_charts_fixed ssd "SSD" _ tree2 Hc_ssd) in Hrun2.
  eexists _, _. split; [exact Hrun1|]. split; [exact Hrun2|].
  cbn [fs figs log]. repeat split; try done.
  rewrite (saved_app (log st ++ main_events hdd ssd)). f_equal.
  assert (Hskip : ∀ name evs, saved (EvMakedirs name :: evs) = saved evs)
    by done.
  unfold main_events.
  rewrite Hskip, saved_app, !Hskip, !saved_body_events. reflexivity.
Qed.

Lemma respects_main :
  respects (main errorbar_accepts savefig_renders)
    (λ e, device_event "hdd_benchmark_results" "HDD" "benchmark_plots" e
          ∨ device_event "ssd_benchmark_results" "SSD" "benchmark_plots" e)
    (λ p, device_paths "HDD" "benchmark_plots" p
          ∨ device_paths "SSD" "benchmark_plots" p).
Proof.
  unfold main. apply respects_bind; [|intros _; apply respects_bind; [|intros _]].
  - apply respects_makedirs; [by left|]. intros p Hp. left. by left.
  - eapply respects_weaken; [apply respects_process_device|..]; auto.
  - eapply respects_weaken; [apply respects_process_device|..]; auto.
Qed.

(** X14: Whatever a run of [main] does, and whether it returns or raises: the
    tree is unchanged outside [benchmark_plots] and the eight chart paths,
    so the twelve input files still load as before; no directory is
    removed; and [savefig] is called with none but the eight chart names. *)
Theorem main_touches_only_its_charts st r st' :
  run (main errorbar_accepts savefig_renders) st = (r, st') →
  (∀ p, p ≠ ["benchmark_plots"] → p ∉ map resolve all_charts →
        lookup_node (fs st') p = lookup_node (fs st) p)
  ∧ (∀ f, f ∈ main_inputs → load_result (fs st') f = load_result (fs st) f)
  ∧ (∀ p, is_dir (fs st) p = true → is_dir (fs st') p = true)
  ∧ ∃ evs, log st' = log st ++ evs ∧ ∀ f, f ∈ saved evs → f ∈ all_charts.
Proof.
  intros Hrun.
  destruct (respects_main _ _ _ Hrun) as ((evs & Hlog & Hevs) & Hfs & Hdirs).
  assert (Hsame : ∀ p, p ≠ [] → p ≠ ["benchmark_plots"] →
            p ∉ map resolve all_charts → fs st' !! p = fs st !! p).
  { intros p Hroot Hp Hc. apply Hfs. unfold device_paths, all_charts in *.
    rewrite map_app, not_elem_of_app in Hc. destruct Hc as [Hc1 Hc2].
    assert (Hpre : ¬ p `prefix_of` resolve "benchmark_plots").
    { change (resolve "benchmark_plots") with ["benchmark_plots"].
      intros [k Hk]. destruct p as [|a [|b p]]; [done| |done].
      simpl in Hk. injection Hk as <- _. done. }
    by intros [[?|?]|[?|?]]. }
  split; [|split; [|split; [done|]]].
  - intros p Hp Hc. unfold lookup_node. destruct p as [|a p]; [done|].
    by apply Hsame.
  - intros f Hf. apply load_result_ext. intros n Hn.
    pose proof (proj1 (Forall_forall _ _) input_ancestors_not_outputs f Hf) as Hanc.
    destruct (proj1 (Forall_forall _ _) Hanc n) as [? ?];
      [apply list_elem_of_In, in_seq; lia|].
    apply Hsame; [|done..].
    intros Hnil. apply (f_equal length) in Hnil.
    rewrite length_take in Hnil. simpl in Hnil. lia.
  - exists evs. split; [done|]. intros f Hf.
    clear Hlog. induction Hevs as [|ev evs Hev _ IH]; [by apply elem_of_nil in Hf|].
    destruct ev; simpl in Hf; auto.
    apply elem_of_cons in Hf as [->|Hf]; [|auto].
    unfold all_charts. apply elem_of_app. simpl in Hev. tauto.
Qed.

(** X15: The counterpart of a failure of the first device: when the HDD device
    is complete (its inputs load, the plotting library takes their series
    and draws its four figures) and an input file of the SSD device is
    missing, [main]
    raises, but the four HDD charts are written and stay; the tree is
    unchanged at the paths of the SSD charts. *)
Theorem main_ssd_failure_keeps_hdd_charts (hdd : DeviceTables) st f :
  holds_inputs (fs st) "hdd_benchmark_results" hdd →
  plottable errorbar_accepts hdd = true →
  renderable savefig_renders hdd "HDD" = true →
  is_file (fs st) ["benchmark_plots"] = false →
  forallb (λ g, negb (is_dir (fs st) (resolve g)))
          (chart_files "benchmark_plots" "HDD") = true →
  f ∈ input_paths "ssd_benchmark_results" →
  lookup_node (fs st) (resolve f) = None →
  ∃ e st',
    run (main errorbar_accepts savefig_renders) st = (Raise e, st') ∧
    holds_charts (fs st') hdd "HDD" "benchmark_plots" ∧
    saved (log st') = saved (log st) ++ chart_files "benchmark_plots" "HDD" ∧
    (∀ g, g ∈ chart_files "benchmark_plots" "SSD" →
          fs st' !! resolve g = fs st !! resolve g).
Proof.
  intros Hhdd Hphdd Hrhdd Hplots Hfree Hf Hmiss.
  destruct (makedirs_plots _ Hplots) as (tree0 & Hgo & Hd0 & Hsame0 & _).
  set (tree1 := write_charts hdd "HDD" "benchmark_plots" tree0).
  assert (Hin : ∀ g, g ∈ main_inputs → tree1 !! resolve g = fs st !! resolve g).
  { intros g Hg.
    destruct (proj1 (Forall_forall _ _) inputs_not_outputs g Hg) as (_ & ? & Hn).
    unfold tree1. rewrite write_charts_other, Hsame0; [done..|].
    intros Hc. apply Hn. unfold all_charts. rewrite map_app.
    apply elem_of_app. by left. }
  assert (Hd1 : tree1 !! ["benchmark_plots"] = Some Dir).
  { unfold tree1. rewrite write_charts_other; [done|].
    apply plots_not_chart. by left. }
  assert (Hfail : ∀ df, load_result tree1 f ≠ Ok df).
  { intros df. apply load_result_missing. unfold lookup_node in *.
    destruct (resolve f) as [|a p] eqn:Hp; [done|].
    rewrite <- Hp, Hin, Hp; [done|]. apply elem_of_app. by right. }
  match goal with |- ∃ e st', run _ ?s = _ ∧ _ =>
    destruct (device_body_fails_loading "ssd_benchmark_results" "SSD"
                "benchmark_plots"
                (mkState tree1 (figs st)
                   (((log s ++ [EvMakedirs "benchmark_plots"])
                     ++ EvMakedirs "benchmark_plots"
                        :: body_events hdd "hdd_benchmark_results" "HDD"
                                       "benchmark_plots")
                    ++ [EvMakedirs "benchmark_plots"])) f Hf Hfail)
      as (e & st' & evs & Hres & Hlog & _ & Hevs & Hfigs & Hfs)
  end.
  cbn [fs figs log] in *.
  exists e, st'. split.
  { unfold main. eapply run_seq.
    { rewrite run_makedirs. cbv zeta. rewrite decide_False by done.
      by rewrite Hgo. }
    eapply run_seq.
    { apply (run_device_in_plots _ _ hdd); [by left|done| |done|done|].
      - eapply holds_inputs_ext; [|exact Hhdd]. intros g Hg. apply Hsame0.
        assert (g ∈ main_inputs) as Hg' by (apply elem_of_app; by left).
        by destruct (proj1 (Forall_forall _ _) inputs_not_outputs g Hg')
          as (_ & ? & _).
      - intros g Hg. rewrite (is_dir_ext (fs st)).
        + rewrite forallb_forall in Hfree. apply negb_true_iff, Hfree.
          by apply list_elem_of_In.
        + apply Hsame0.
          apply (proj1 (Forall_forall _ _) charts_not_plots).
          apply elem_of_app. by left. }
    rewrite process_device_unfold. eapply run_seq; [|exact Hres].
    rewrite run_makedirs. cbv zeta. cbn [fs figs log].
    rewrite decide_False by done.
    rewrite makedirs_go_existing; [done|].
    intros n Hn. assert (n = 1%nat) as -> by (vm_compute in Hn; lia).
    exact Hd1. }
  rewrite Hfs, Hlog. split; [|split].
  - apply write_charts_holds. by left.
  - assert (Hskip : ∀ name l0, saved (EvMakedirs name :: l0) = saved l0)
      by done.
    rewrite !saved_app, (saved_only_loads evs), !Hskip, saved_body_events by done.
    simpl. by rewrite !app_nil_r.
  - intros g Hg. unfold tree1. rewrite write_charts_other.
    + apply Hsame0. apply (proj1 (Forall_forall _ _) charts_not_plots).
      apply elem_of_app. by right.
    + by apply (proj1 (Forall_forall _ _) ssd_charts_not_hdd).
Qed.

End EntryPoint.

(** A complete run on the sample tree: each chart shows its own tables. *)
Lemma main_charts_drawn_from_their_tables_witness :
  ∃ st',
    run (main yerr_nonnegative log_axes_render) sample_state = (Ok tt, st') ∧
    fs st' !! ["benchmark_plots"; "stride_SSD_write.png"]
      = Some (File (PngImage (stride_figure sample_table "write" "SSD"))) ∧
    figs st' = [].
Proof.
  destruct (main_charts_drawn_from_their_tables yerr_nonnegative log_axes_render sample_tables
              sample_tables sample_state)
    as (st' & Hrun & _ & (_ & _ & _ & Hchart) & Hfigs).
  - repeat split; vm_compute; reflexivity.
  - repeat split; vm_compute; reflexivity.
  - vm_compute. reflexivity.
  - vm_compute. reflexivity.
  - vm_compute. reflexivity.
  - vm_compute. reflexivity.
  - vm_compute. reflexivity.
  - vm_compute. reflexivity.
  - exists st'. split; [exact Hrun|]. split; [exact Hchart|exact Hfigs].
Defined.

(** Two runs in a row on the sample tree. *)
Lemma main_rerun_same_tree_witness :
  ∃ st1 st2,
    run (main yerr_nonnegative log_axes_render) sample_state = (Ok tt, st1) ∧
    run (main yerr_nonnegative log_axes_render) st1 = (Ok tt, st2) ∧
    fs st2 = fs st1.
Proof.
  destruct (main_rerun_same_tree yerr_nonnegative log_axes_render sample_tables sample_tables
              sample_state) as (st1 & st2 & Hrun1 & Hrun2 & Hfs & _).
  - repeat split; vm_compute; reflexivity.
  - repeat split; vm_compute; reflexivity.
  - vm_compute. reflexivity.
  - vm_compute. reflexivity.
  - vm_compute. reflexivity.
  - vm_compute. reflexivity.
  - vm_compute. reflexivity.
  - vm_compute. reflexivity.
  - exists st1, st2. split; [exact Hrun1|]. split; [exact Hrun2|exact Hfs].
Defined.

(** A run that fails in the HDD device leaves the SSD inputs as they were. *)
Lemma main_touches_only_its_charts_witness :
  load_result (fs (run (main yerr_nonnegative log_axes_render) incomplete_state).2)
              "ssd_benchmark_results/random_read.csv"
  = Ok sample_table.
Proof.
  destruct (main_touches_only_its_charts yerr_nonnegative log_axes_render incomplete_state
              (run (main yerr_nonnegative log_axes_render) incomplete_state).1
              (run (main yerr_nonnegative log_axes_render) incomplete_state).2)
    as (_ & Hload & _).
  - vm_compute. reflexivity.
  - rewrite Hload.
    + vm_compute. reflexivity.
    + unfold main_inputs, input_paths, input_files. simpl.
      do 8 right. left.
Defined.

(** The SSD device without its [stride_read.csv]. *)
Lemma main_ssd_failure_keeps_hdd_charts_witness :
  ∃ e st',
    run (main yerr_nonnegative log_axes_render) ssd_incomplete_state = (Raise e, st') ∧
    saved (log st') = chart_files "benchmark_plots" "HDD".
Proof.
  destruct (main_ssd_failure_keeps_hdd_charts yerr_nonnegative log_axes_render sample_tables
              ssd_incomplete_state "ssd_benchmark_results/stride_read.csv")
    as (e & st' & Hrun & _ & Hsaved & _).
  - repeat split; vm_compute; reflexivity.
  - vm_compute. reflexivity.
  - vm_compute. reflexivity.
  - vm_compute. reflexivity.
  - vm_compute. reflexivity.
  - unfold input_paths, input_files. simpl. do 4 right. left.
  - vm_compute. reflexivity.
  - exists e, st'. split; [exact Hrun|]. rewrite Hsaved. reflexivity.
Defined.
